(** * data_agent: the orchestration loop, the execution sandbox and the
    reasoning-client adapter, embedded from agent.py, executor.py and llm.py. *)

From Stdlib Require Import ZArith List String Ascii Bool Lia Arith.
From Stdlib Require Import Sorting.Sorted Sorting.Permutation.
From Stdlib Require Import DecimalString.
Import ListNotations.
Open Scope string_scope.
Set Warnings "-register-all".

(** ** Values and outcomes shared by the three modules *)

(** A Python exception: its class name, its message and the text
    [traceback.format_exc()] gives for it. *)
Record exn := Exn { exn_class : string; exn_msg : string; exn_trace : string }.

(** The built-in classes that derive from BaseException and not from
    Exception: an [except Exception] clause lets them through.  Any
    other class name is taken for a subclass of Exception. *)
Definition base_only (e : exn) : bool :=
  String.eqb (exn_class e) "KeyboardInterrupt"
  || String.eqb (exn_class e) "SystemExit"
  || String.eqb (exn_class e) "GeneratorExit".

(** What a call does: it returns, it raises, or it never comes back. *)
Inductive outcome (A : Type) : Type :=
| Ret (a : A)
| Raise (e : exn)
| Hang.
Arguments Ret {A} a.
Arguments Raise {A} e.
Arguments Hang {A}.

(** JSON values, as the arguments of a tool invocation arrive
    ([dict[str, Any]] in the source). *)
Inductive jval :=
| JNull
| JBool (b : bool)
| JNum (z : Z)
| JStr (s : string)
| JArr (l : list jval)
| JObj (kv : list (string * jval)).

(** [d.get(key, default)] on a JSON object. *)
Fixpoint dict_get (d : list (string * jval)) (key : string) (default : jval) : jval :=
  match d with
  | [] => default
  | (k, v) :: d' => if String.eqb k key then v else dict_get d' key default
  end.

(** Python truthiness ([if v], [v or w]). *)
Definition truthy (v : jval) : bool :=
  match v with
  | JNull => false
  | JBool b => b
  | JNum z => negb (Z.eqb z 0)
  | JStr s => negb (String.eqb s "")
  | JArr l => match l with [] => false | _ => true end
  | JObj kv => match kv with [] => false | _ => true end
  end.

(** [a or b]. *)
Definition py_or (a b : jval) : jval := if truthy a then a else b.

(** Decimal rendering of integers, as f-strings do. *)
Definition string_of_nat (n : nat) : string := NilEmpty.string_of_uint (Nat.to_uint n).
Definition string_of_Z (z : Z) : string :=
  match z with
  | Z0 => "0"
  | Zpos p => string_of_nat (Pos.to_nat p)
  | Zneg p => "-" ++ string_of_nat (Pos.to_nat p)
  end.

(** [sep.join(l)]. *)
Fixpoint join (sep : string) (l : list string) : string :=
  match l with
  | [] => ""
  | [x] => x
  | x :: rest => x ++ sep ++ join sep rest
  end.

(** [s.startswith(p)] is [String.prefix p s]. *)
Definition startswith (s p : string) : bool := String.prefix p s.

(** [s.endswith(p)]. *)
Definition endswith (s p : string) : bool :=
  let ls := String.length s in
  let lp := String.length p in
  if Nat.leb lp ls then String.eqb (String.substring (ls - lp) lp s) p else false.

(** Content blocks of a model turn and the turn itself
    ([anthropic.types.Message]: [content], [stop_reason]).  A block is
    text, a tool use, or of another [type] (thinking, server tool use,
    ...), of which only the type matters here. *)
Inductive block :=
| TextBlock (text : string)
| ToolUseBlock (id name : string) (input : list (string * jval))
| OtherBlock (type : string).

Record response := Response { content : list block; stop_reason : string }.

(** A formatted tool result, the dict built by [format_tool_result]. *)
Record tool_result := ToolResult
  { tool_use_id : string; tr_content : string; is_error : bool }.

(** A conversation turn: role and content; the content is the initial
    text, the blocks of a model turn, or a list of tool results. *)
Inductive msg_content :=
| CText (s : string)
| CBlocks (bs : list block)
| CResults (rs : list tool_result).

Record message := Message { role : string; msg_body : msg_content }.

(** ** llm.py: the reasoning-client adapter *)
Module Llm.

(** What one call of [client.messages.create] does.  [RateLimitError]
    is a subclass of [APIError]; both are caught and retried, any other
    exception leaves [send_message] at once. *)
Inductive attempt_result :=
| Success (r : response)
| RateLimitError (e : exn)
| APIError (e : exn)
| OtherError (e : exn).

(** The transport, seen from [send_message]: the outcome of each attempt,
    numbered from 0. *)
Definition transport := nat -> attempt_result.

(** What [send_message] leaves behind: the number of calls of [create]
    and the arguments of [time.sleep], oldest first. *)
Record log := Log { attempts : nat; sleeps : list Z }.

Definition default_max_retries : Z := 3.

(** The body of [for attempt in range(self.max_retries)], from [attempt]
    on, with [n] iterations left.  Falling off the loop returns [None]. *)
Fixpoint send_loop (create : transport) (max_retries : Z)
    (n : nat) (attempt : nat) (lg : log) : outcome (option response) * log :=
  match n with
  | O => (Ret None, lg)
  | S n' =>
    let lg1 := Log (S (attempts lg)) (sleeps lg) in
    let retry e :=
      if (Z.of_nat attempt <? max_retries - 1)%Z then
        let wait_time := (2 ^ Z.of_nat attempt)%Z in
        send_loop create max_retries n' (S attempt)
          (Log (attempts lg1) (sleeps lg1 ++ [wait_time]))
      else (Raise e, lg1) in
    match create attempt with
    | Success r => (Ret (Some r), lg1)
    | RateLimitError e => retry e
    | APIError e => retry e
    | OtherError e => (Raise e, lg1)
    end
  end.

Definition send_message (create : transport) (max_retries : Z)
  : outcome (option response) * log :=
  send_loop create max_retries (Z.to_nat max_retries) 0 (Log 0 []).

(** [extract_tool_use]: the tool-use blocks, in order. *)
Fixpoint extract_tool_use (bs : list block)
  : list (string * string * list (string * jval)) :=
  match bs with
  | [] => []
  | TextBlock _ :: bs' => extract_tool_use bs'
  | ToolUseBlock i n inp :: bs' => (i, n, inp) :: extract_tool_use bs'
  | OtherBlock _ :: bs' => extract_tool_use bs'
  end.

(** [extract_text]: the text blocks joined by newlines. *)
Fixpoint texts (bs : list block) : list string :=
  match bs with
  | [] => []
  | TextBlock t :: bs' => t :: texts bs'
  | ToolUseBlock _ _ _ :: bs' => texts bs'
  | OtherBlock _ :: bs' => texts bs'
  end.

Definition newline : string := String (ascii_of_nat 10) "".

Definition extract_text (bs : list block) : string := join newline (texts bs).

Definition format_tool_result (tool_use_id result : string) (is_error : bool)
  : tool_result := ToolResult tool_use_id result is_error.

(** A transient failure is one the adapter catches. *)
Definition transient (a : attempt_result) : Prop :=
  match a with
  | RateLimitError _ | APIError _ => True
  | _ => False
  end.

(** The exception an attempt raised. *)
Definition raised (a : attempt_result) : option exn :=
  match a with
  | Success _ => None
  | RateLimitError e | APIError e | OtherError e => Some e
  end.

(** The waits 1, 2, 4, ... before retries 1 .. k. *)
Definition backoff (k : nat) : list Z := map (fun i => (2 ^ Z.of_nat i)%Z) (seq 0 k).

End Llm.

(** ** executor.py: the execution sandbox *)
Module Executor.

(** The table behind a DataFrame: column labels and rows of cells. *)
Record dataset := Dataset { columns : list string; rows : list (list string) }.

Definition shape (d : dataset) : nat * nat := (List.length (rows d), List.length (columns d)).

Definition empty_dataset : dataset := Dataset [] [].

(** DataFrames are mutable objects: a heap of them, addressed by position. *)
Definition addr := nat.
Definition heap := list dataset.

Definition deref (h : heap) (a : addr) : dataset := nth a h empty_dataset.

Fixpoint store (h : heap) (a : addr) (d : dataset) : heap :=
  match h, a with
  | [], _ => []
  | _ :: h', O => d :: h'
  | x :: h', S a' => x :: store h' a' d
  end.

(** [df.copy()]: a new object with the same table. *)
Definition copy (h : heap) (a : addr) : heap * addr :=
  ((h ++ [deref h a])%list, List.length h).

(** [ExecutionResult]. *)
Record ExecutionResult := mkResult
  { success : bool; output : string; error : option string; figures : list string }.

(** The [CodeExecutor] object. *)
Record executor := mkExecutor
  { csv_path : string; output_dir : string; df : addr; _figure_counter : nat }.

(** What lives outside the object: the DataFrame heap, the entries of the
    output directory ([None] when the directory does not exist) and the
    number of figures pyplot holds open. *)
Record world := mkWorld
  { objects : heap; dir : option (list string); fignums : nat }.

(** What a snippet does, as the interpreter sees it. *)
Inductive action :=
| Print (s : string)                  (* write to sys.stdout *)
| EPrint (s : string)                 (* write to sys.stderr *)
| Wait (n : nat)                      (* let n time units pass *)
| WriteFile (name : string)           (* create a file in output_dir, savefig included *)
| OpenFig                             (* plt.figure() *)
| CloseFigs                           (* plt.close('all') *)
| SetCol (c : string) (v : string)    (* df[c] = v *)
| DelCol (c : string)                 (* del df[c] *)
| DropRow (i : nat)                   (* df.drop(i, inplace=True) *)
| AddRow (r : list string)            (* df.loc[len(df)] = r *)
| Throw (e : exn)                     (* raise an Exception, a true object as the built-in ones are *)
| ThrowFalsy (e : exn)                (* raise an Exception whose object is false (__bool__, __len__) *)
| Exit (e : exn)                      (* raise a BaseException that is no Exception: sys.exit() *)
| Spin.                               (* loop for ever *)

Definition snippet := list action.

Fixpoint remove_nth {A} (i : nat) (l : list A) : list A :=
  match l, i with
  | [], _ => []
  | _ :: l', O => l'
  | x :: l', S i' => x :: remove_nth i' l'
  end.

Fixpoint index_of (c : string) (l : list string) : option nat :=
  match l with
  | [] => None
  | x :: l' => if String.eqb x c then Some 0
               else match index_of c l' with Some i => Some (S i) | None => None end
  end.

Fixpoint set_nth {A} (i : nat) (v : A) (l : list A) : list A :=
  match l, i with
  | [], _ => []
  | _ :: l', O => v :: l'
  | x :: l', S i' => x :: set_nth i' v l'
  end.

Definition set_col (c v : string) (d : dataset) : dataset :=
  match index_of c (columns d) with
  | Some i => Dataset (columns d) (map (set_nth i v) (rows d))
  | None => Dataset (columns d ++ [c])%list (map (fun r => (r ++ [v])%list) (rows d))
  end.

Definition file_not_found (name : string) : exn :=
  Exn "FileNotFoundError" ("[Errno 2] No such file or directory: '" ++ name ++ "'") "".

Definition key_error (k : string) : exn := Exn "KeyError" ("'" ++ k ++ "'") "".

Fixpoint mem (x : string) (l : list string) : bool :=
  match l with
  | [] => false
  | y :: l' => String.eqb x y || mem x l'
  end.

Definition add_entry (name : string) (names : list string) : list string :=
  if mem name names then names else (names ++ [name])%list.

(** The state the worker runs in: the world, the two redirected streams
    and the time it has used. *)
Record wstate := mkW
  { w_world : world; stdout_buffer : string; stderr_buffer : string; elapsed : nat }.

(** How the worker ends. *)
Inductive wend :=
| Finished
| Faulted (e : exn)       (* an Exception: caught by run_code, kept in result_container *)
| Swallowed (e : exn)     (* the same, but the object kept is false *)
| Escaped (e : exn)       (* a BaseException: kept by the future *)
| Diverged.

Definition with_world (s : wstate) (w : world) : wstate :=
  mkW w (stdout_buffer s) (stderr_buffer s) (elapsed s).

(** One action on the namespace whose [df] is the object at [a]. *)
Definition step (a : addr) (act : action) (s : wstate) : wend * wstate :=
  let w := w_world s in
  let d := deref (objects w) a in
  let put d' := (Finished, with_world s (mkWorld (store (objects w) a d') (dir w) (fignums w))) in
  match act with
  | Print t => (Finished, mkW w (stdout_buffer s ++ t) (stderr_buffer s) (elapsed s))
  | EPrint t => (Finished, mkW w (stdout_buffer s) (stderr_buffer s ++ t) (elapsed s))
  | Wait n => (Finished, mkW w (stdout_buffer s) (stderr_buffer s) (elapsed s + n))
  | WriteFile name =>
    match dir w with
    | Some names =>
      (Finished, with_world s (mkWorld (objects w) (Some (add_entry name names)) (fignums w)))
    | None => (Faulted (file_not_found name), s)
    end
  | OpenFig => (Finished, with_world s (mkWorld (objects w) (dir w) (S (fignums w))))
  | CloseFigs => (Finished, with_world s (mkWorld (objects w) (dir w) 0))
  | SetCol c v => put (set_col c v d)
  | DelCol c =>
    match index_of c (columns d) with
    | Some i => put (Dataset (remove_nth i (columns d)) (map (remove_nth i) (rows d)))
    | None => (Faulted (key_error c), s)
    end
  | DropRow i =>
    if Nat.ltb i (List.length (rows d))
    then put (Dataset (columns d) (remove_nth i (rows d)))
    else (Faulted (key_error (string_of_nat i)), s)
  | AddRow r => put (Dataset (columns d) (rows d ++ [r])%list)
  | Throw e => (Faulted e, s)
  | ThrowFalsy e => (Swallowed e, s)
  | Exit e => (Escaped e, s)
  | Spin => (Diverged, s)
  end.

(** [run_code]: [exec(code, namespace)] under the two redirections. *)
Fixpoint run_code (a : addr) (code : snippet) (s : wstate) : wend * wstate :=
  match code with
  | [] => (Finished, s)
  | act :: rest =>
    match step a act s with
    | (Finished, s') => run_code a rest s'
    | stop => stop
    end
  end.

Definition is_png (name : string) : bool := endswith name ".png".

(** [str(Path(output_dir) / name)]. *)
Definition path_of (output_dir name : string) : string := output_dir ++ "/" ++ name.

Fixpoint dedup (l : list string) : list string :=
  match l with
  | [] => []
  | x :: l' => if mem x l' then dedup l' else x :: dedup l'
  end.

(** [_get_existing_figures]: the set of the [*.png] entries, as paths. *)
Definition _get_existing_figures (self : executor) (w : world) : list string :=
  match dir w with
  | None => []
  | Some names => dedup (map (path_of (output_dir self)) (filter is_png names))
  end.

(** [a - b] on sets. *)
Definition set_diff (a b : list string) : list string :=
  filter (fun p => negb (mem p b)) a.

(** [sorted] on strings. *)
Fixpoint insert (x : string) (l : list string) : list string :=
  match l with
  | [] => [x]
  | y :: l' => if String.leb x y then x :: l else y :: insert x l'
  end.

Definition sorted (l : list string) : list string := fold_right insert [] l.

(** The loop over [plt.get_fignums()]: one file per open figure. *)
Fixpoint autosave (output_dir : string) (n : nat) (counter : nat) (d : option (list string))
  : option exn * nat * option (list string) :=
  match n with
  | O => (None, counter, d)
  | S n' =>
    let counter' := S counter in
    let name := "figure_" ++ string_of_nat counter' ++ ".png" in
    match d with
    | Some names => autosave output_dir n' counter' (Some (add_entry name names))
    | None => (Some (file_not_found (path_of output_dir name)), counter', d)
    end
  end.

Definition error_msg (e : exn) : string :=
  exn_class e ++ ": " ++ exn_msg e ++ Llm.newline ++ exn_trace e.

Definition timeout_msg (timeout : nat) : string :=
  "Timeout: Code execution exceeded " ++ string_of_nat timeout ++ " seconds".

Definition default_timeout : nat := 30.

(** The class the first handler of [execute] catches:
    concurrent.futures.TimeoutError, which is the built-in TimeoutError
    from Python 3.11 on.  (An exception of a class derived from it is
    caught by the same handler; it is written here with this class, its
    own name being rendered nowhere.) *)
Definition is_futures_timeout (e : exn) : bool := String.eqb (exn_class e) "TimeoutError".

(** [execute].  The worker runs on a one-thread pool; [future.result]
    waits at most [timeout] for it; leaving the [with] block shuts the
    pool down and waits for the worker (ThreadPoolExecutor.__exit__ is
    shutdown(wait=True)), whatever [future.result] did.  An exception
    kept in [result_container] is raised again only when its object is
    true, and then meets the handlers of the [try]: the one for the
    timeout class first.  The [finally] closes every figure. *)
Definition execute (self : executor) (code : snippet) (timeout : nat) (w : world)
  : outcome (ExecutionResult * executor * world) :=
  let figures_before := _get_existing_figures self w in
  let '(h, a) := copy (objects w) (df self) in
  let s0 := mkW (mkWorld h (dir w) 0) "" "" 0 in
  let '(e, s) := run_code a code s0 in
  let w1 := w_world s in
  let closed d := mkWorld (objects w1) d 0 in
  let failed (msg : string) (self' : executor) (d : option (list string)) :=
    Ret (mkResult false (stdout_buffer s) (Some msg) [], self', closed d) in
  match e with
  | Diverged => Hang
  | _ =>
    if Nat.ltb timeout (elapsed s) then failed (timeout_msg timeout) self (dir w1)
    else
      match e with
      | Escaped x => Raise x
      | Faulted x =>
        if is_futures_timeout x then failed (timeout_msg timeout) self (dir w1)
        else failed (error_msg x) self (dir w1)
      | _ =>
        let '(x, counter, d) :=
          autosave (output_dir self) (fignums w1) (_figure_counter self) (dir w1) in
        let self' := mkExecutor (csv_path self) (output_dir self) (df self) counter in
        match x with
        | Some x => failed (error_msg x) self' d
        | None =>
          let figures_after := _get_existing_figures self' (closed d) in
          let new_figures := sorted (set_diff figures_after figures_before) in
          Ret (mkResult true (stdout_buffer s) None new_figures, self', closed d)
        end
      end
  end.

(** What the worker had written to standard output when [t] time units
    had passed. *)
Fixpoint buffered_at (t : nat) (a : addr) (code : snippet) (s : wstate) : string :=
  match code with
  | [] => stdout_buffer s
  | act :: rest =>
    match step a act s with
    | (Finished, s') =>
      if Nat.ltb t (elapsed s') then stdout_buffer s else buffered_at t a rest s'
    | (_, s') => stdout_buffer s'
    end
  end.

(** The same, from the state [execute] starts the worker in. *)
Definition output_at_timeout (self : executor) (code : snippet) (timeout : nat) (w : world)
  : string :=
  let '(h, a) := copy (objects w) (df self) in
  buffered_at timeout a code (mkW (mkWorld h (dir w) 0) "" "" 0).





End Executor.

(** ** agent.py: the orchestration loop *)
Module Agent.

(** The calls made on the presenter, in order. *)
Inductive event :=
| ShowThinking (m : string)
| ShowError (m : string)
| ShowWarning (m : string)
| ShowCodeExecution (code purpose : jval) (r : Executor.ExecutionResult)
| ShowQuestion (q : jval)
| ShowResults (summary : jval) (figs : list jval).

(** What the agent does not own: the remote model (the outcome of each
    attempt for a conversation), the meaning of a code text when [exec]
    runs it, the user's answer read by [show_question] (which raises
    when the panel cannot be rendered or [Prompt.ask] meets the end of
    input), the text pandas renders for the loaded table, and what the
    presenter does with a call that renders text it was handed (rich
    raises a MarkupError on a text with a closing tag that matches no
    open one, and rejects values it cannot render). *)
Record env := mkEnv
  { create : list message -> Llm.transport;
    parse : string -> Executor.snippet;
    answer : jval -> outcome string;
    get_dataframe_info : Executor.executor -> Executor.world -> string;
    present : event -> outcome unit }.

(** The [DataAnalystAgent] object with the world around it: [sent] lists
    the conversations passed to [send_message], oldest first. *)
Record state := mkState
  { max_iterations : Z;
    messages : list message;
    figures : list string;
    executor : Executor.executor;
    world : Executor.world;
    events : list event;
    sent : list (list message) }.

Definition M (A : Type) : Type := state -> outcome A * state.

Definition emit (e : event) (st : state) : state :=
  mkState (max_iterations st) (messages st) (figures st) (executor st) (world st)
    (events st ++ [e]) (sent st).

Definition append_message (m : message) (st : state) : state :=
  mkState (max_iterations st) (messages st ++ [m]) (figures st) (executor st) (world st)
    (events st) (sent st).

Definition record_request (st : state) : state :=
  mkState (max_iterations st) (messages st) (figures st) (executor st) (world st)
    (events st) (sent st ++ [messages st]).

Definition after_execute (ex : Executor.executor) (w : Executor.world)
    (figs : list string) (st : state) : state :=
  mkState (max_iterations st) (messages st) (figs) ex w (events st) (sent st).

(** A call on the presenter with text from the model, the client or a
    snippet: the call is logged, and returns or raises as the presenter
    decides.  (The calls with a text of fixed form - the iteration line,
    the warning - are logged with [emit] alone.) *)
Definition show (E : env) (ev : event) : M unit :=
  fun st => (present E ev, emit ev st).

(** [if text_content: self.presenter.show_thinking(text_content)]. *)
Definition show_text (E : env) (text_content : string) : M unit :=
  fun st =>
  if negb (String.eqb text_content "") then show E (ShowThinking text_content) st
  else (Ret tt, st).

Definition type_error (m : string) : exn := Exn "TypeError" m "".

(** The behaviour of [exec(code, namespace)]: a code that is no string
    makes [exec] raise a TypeError inside [run_code]. *)
Definition snippet_of (E : env) (code : jval) : Executor.snippet :=
  match code with
  | JStr s => parse E s
  | _ => [Executor.Throw (type_error "exec() arg 1 must be a string, bytes or code object")]
  end.

(** [f"{result.error}"]. *)
Definition show_error_field (e : option string) : string :=
  match e with Some m => m | None => "None" end.

Definition _handle_execute_code (E : env) (tool_input : list (string * jval)) : M string :=
  fun st =>
  let code := dict_get tool_input "code" (JStr "") in
  let purpose := dict_get tool_input "purpose" (JStr "Execute code") in
  match Executor.execute (executor st) (snippet_of E code) Executor.default_timeout (world st) with
  | Hang => (Hang, st)
  | Raise e => (Raise e, st)
  | Ret (result, ex, w) =>
    match show E (ShowCodeExecution code purpose result)
            (after_execute ex w (figures st) st) with
    | (Raise e, st1) => (Raise e, st1)
    | (Hang, st1) => (Hang, st1)
    | (Ret _, st1) =>
      let st2 :=
        match Executor.figures result with
        | [] => st1
        | figs => after_execute ex w (figures st1 ++ figs) st1
        end in
      if Executor.success result then
        let response :=
          if negb (String.eqb (Executor.output result) "")
          then "Output:" ++ Llm.newline ++ Executor.output result
          else "Code executed successfully (no output)." in
        let response :=
          match Executor.figures result with
          | [] => response
          | figs => response ++ Llm.newline ++ Llm.newline ++ "Generated figures: " ++ join ", " figs
          end in
        (Ret response, st2)
      else
        (Ret ("Error:" ++ Llm.newline ++ show_error_field (Executor.error result)), st2)
    end
  end.

Definition _handle_ask_question (E : env) (tool_input : list (string * jval)) : M string :=
  fun st =>
  let question := dict_get tool_input "question" (JStr "") in
  let st1 := emit (ShowQuestion question) st in
  match answer E question with
  | Ret user_response => (Ret ("User response: " ++ user_response), st1)
  | Raise e => (Raise e, st1)
  | Hang => (Hang, st1)
  end.

(** The hash key of a value put in a set: lists and dicts have none,
    and [True] and [False] hash as 1 and 0. *)
Inductive hkey := KNone | KNum (z : Z) | KStr (s : string).

Definition hash_key (v : jval) : option hkey :=
  match v with
  | JNull => Some KNone
  | JBool b => Some (KNum (if b then 1 else 0))
  | JNum z => Some (KNum z)
  | JStr s => Some (KStr s)
  | JArr _ | JObj _ => None
  end.

Definition hkey_eqb (a b : hkey) : bool :=
  match a, b with
  | KNone, KNone => true
  | KNum x, KNum y => Z.eqb x y
  | KStr x, KStr y => String.eqb x y
  | _, _ => false
  end.

Definition same_key (a b : jval) : bool :=
  match hash_key a, hash_key b with
  | Some x, Some y => hkey_eqb x y
  | _, _ => false
  end.

(** [list(set(l))], in the order of first occurrence (the source leaves
    the order to the set); a TypeError when an element cannot be hashed. *)
Fixpoint to_set (l : list jval) (acc : list jval) : outcome (list jval) :=
  match l with
  | [] => Ret acc
  | v :: l' =>
    match hash_key v with
    | None => Raise (type_error "unhashable type")
    | Some _ =>
      if existsb (same_key v) acc then to_set l' acc else to_set l' (acc ++ [v])
    end
  end.

Definition _handle_present_results (E : env) (tool_input : list (string * jval)) : M string :=
  fun st =>
  let summary := dict_get tool_input "summary" (JStr "") in
  let visualizations := dict_get tool_input "visualizations" (JArr []) in
  match visualizations with
  | JArr vs =>
    match to_set (vs ++ map JStr (figures st)) [] with
    | Ret all_figures =>
      match show E (ShowResults summary all_figures) st with
      | (Ret _, st1) => (Ret "Results presented successfully.", st1)
      | (Raise e, st1) => (Raise e, st1)
      | (Hang, st1) => (Hang, st1)
      end
    | Raise e => (Raise e, st)
    | Hang => (Hang, st)
    end
  | _ => (Raise (type_error "unsupported operand type(s) for +"), st)
  end.

Definition _handle_tool_call (E : env) (tool_name : string)
    (tool_input : list (string * jval)) : M string :=
  if String.eqb tool_name "execute_code" then _handle_execute_code E tool_input
  else if String.eqb tool_name "ask_clarifying_question" then _handle_ask_question E tool_input
  else if String.eqb tool_name "present_results" then _handle_present_results E tool_input
  else fun st => (Ret ("Error: Unknown tool '" ++ tool_name ++ "'"), st).

(** The [for] loop over [tool_uses]: [final_summary] ([JNull] is
    Python's [None]) and the results collected so far are carried along. *)
Fixpoint process_tools (E : env) (tool_uses : list (string * string * list (string * jval)))
    (final_summary : jval) (tool_results : list tool_result)
  : M (jval * list tool_result) :=
  fun st =>
  match tool_uses with
  | [] => (Ret (final_summary, tool_results), st)
  | (tool_use_id, tool_name, tool_input) :: rest =>
    match _handle_tool_call E tool_name tool_input st with
    | (Ret result, st1) =>
      if String.eqb tool_name "present_results" then
        process_tools E rest (dict_get tool_input "summary" (JStr ""))
          (tool_results ++ [Llm.format_tool_result tool_use_id "Results presented to user." false])
          st1
      else if String.eqb tool_name "ask_clarifying_question" then
        process_tools E rest final_summary
          (tool_results ++ [Llm.format_tool_result tool_use_id result false]) st1
      else
        let is_error := startswith result "Error:" in
        process_tools E rest final_summary
          (tool_results ++ [Llm.format_tool_result tool_use_id result is_error]) st1
    | (Raise e, st1) => (Raise e, st1)
    | (Hang, st1) => (Hang, st1)
    end
  end.

Definition is_none (v : jval) : bool :=
  match v with JNull => true | _ => false end.

(** [not l]. *)
Definition is_empty {A} (l : list A) : bool :=
  match l with [] => true | _ => false end.

Definition thinking (iteration max_iterations : Z) : string :=
  "Thinking... (iteration " ++ string_of_Z iteration ++ "/" ++ string_of_Z max_iterations ++ ")".

(** The [while iteration < self.max_iterations] loop with [n] iterations
    left, that is [n = max_iterations - iteration] when positive.  It
    gives the counter and [final_summary] the loop is left with.  The
    [except Exception] around the request lets a BaseException through. *)
Fixpoint loop (E : env) (n : nat) (iteration : Z) : M (Z * jval) :=
  fun st =>
  match n with
  | O => (Ret (iteration, JNull), st)
  | S n' =>
    let iteration := (iteration + 1)%Z in
    let st := emit (ShowThinking (thinking iteration (max_iterations st))) st in
    let st := record_request st in
    match fst (Llm.send_message (create E (messages st)) Llm.default_max_retries) with
    | Raise e =>
      if base_only e then (Raise e, st)
      else
        match show E (ShowError ("API Error: " ++ exn_msg e)) st with
        | (Ret _, st) => (Ret (iteration, JNull), st)
        | (Raise e', st) => (Raise e', st)
        | (Hang, st) => (Hang, st)
        end
    | Hang => (Hang, st)
    | Ret None =>
      (Raise (Exn "AttributeError" "'NoneType' object has no attribute 'content'" ""), st)
    | Ret (Some response) =>
      let text_content := Llm.extract_text (content response) in
      match show_text E text_content st with
      | (Raise e, st) => (Raise e, st)
      | (Hang, st) => (Hang, st)
      | (Ret _, st) =>
        let tool_uses := Llm.extract_tool_use (content response) in
        if is_empty tool_uses && String.eqb (stop_reason response) "end_turn"
        then (Ret (iteration, py_or (JStr text_content) (JStr "Analysis complete.")), st)
        else
          let st := append_message (Message "assistant" (CBlocks (content response))) st in
          match process_tools E tool_uses JNull [] st with
          | (Ret (final_summary, tool_results), st) =>
            let st := append_message (Message "user" (CResults tool_results)) st in
            if negb (is_none final_summary)
            then (Ret (iteration, final_summary), st)
            else loop E n' iteration st
          | (Raise e, st) => (Raise e, st)
          | (Hang, st) => (Hang, st)
          end
      end
    end
  end.

Definition initial_message (df_info query : string) : string :=
  "I have loaded a CSV file for analysis. Here is information about the data:"
  ++ Llm.newline ++ Llm.newline ++ df_info ++ Llm.newline ++ Llm.newline
  ++ "User query: " ++ query ++ Llm.newline ++ Llm.newline
  ++ "Please analyze this data to answer the user's question. Start by understanding the data, then write and execute code to perform the analysis.".

Definition incomplete : string := "Analysis incomplete - maximum iterations reached.".
Definition no_results : string := "No results generated.".
Definition complete : string := "Analysis complete.".

Definition max_reached (max_iterations : Z) : string :=
  "Reached maximum iterations (" ++ string_of_Z max_iterations ++ "). "
  ++ "Presenting partial results.".

(** [run]. *)
Definition run (E : env) (query : string) : M jval :=
  fun st =>
  let df_info := get_dataframe_info E (executor st) (world st) in
  let st := append_message (Message "user" (CText (initial_message df_info query))) st in
  match loop E (Z.to_nat (max_iterations st)) 0 st with
  | (Ret (iteration, final_summary), st) =>
    if (max_iterations st <=? iteration)%Z && is_none final_summary
    then (Ret (py_or (JStr incomplete) (JStr no_results)),
          emit (ShowWarning (max_reached (max_iterations st))) st)
    else (Ret (py_or final_summary (JStr no_results)), st)
  | (Raise e, st) => (Raise e, st)
  | (Hang, st) => (Hang, st)
  end.

(** A freshly constructed agent: [__init__]. *)
Definition init (max_iterations : Z) (ex : Executor.executor) (w : Executor.world) : state :=
  mkState max_iterations [] [] ex w [] [].

End Agent.

(** ** test_query.py: the scripted query loop *)
Module TestQuery.

(** What [run_query] prints, line by line. *)
Inductive line :=
| Banner (csv_path query : string)
| Iteration (i max : Z)
| Thinking (preview : string)
| Complete
| Executing (purpose : jval)
| Output (preview : string)
| Figures (figs : list string)
| ErrorLine (preview : string)
| Question (q : jval)
| FinalResults (summary : jval)
| MaxIterations
| Total (figures : list jval).

(** The local variables of [run_query] with the world around them. *)
Record state := mkState
  { messages : list message;
    figures : list jval;
    executor : Executor.executor;
    world : Executor.world;
    printed : list line;
    sent : list (list message) }.

Definition M (A : Type) : Type := state -> outcome A * state.

Definition say (l : line) (st : state) : state :=
  mkState (messages st) (figures st) (executor st) (world st) (printed st ++ [l]) (sent st).

Definition append_message (m : message) (st : state) : state :=
  mkState (messages st ++ [m]) (figures st) (executor st) (world st) (printed st) (sent st).

Definition record_request (st : state) : state :=
  mkState (messages st) (figures st) (executor st) (world st) (printed st)
    (sent st ++ [messages st]).

Definition extend (vs : list jval) (st : state) : state :=
  mkState (messages st) (figures st ++ vs) (executor st) (world st) (printed st) (sent st).

Definition after_execute (ex : Executor.executor) (w : Executor.world) (st : state) : state :=
  mkState (messages st) (figures st) ex w (printed st) (sent st).

(** [s[:n] + "..." if len(s) > n else s]. *)
Definition preview (n : nat) (s : string) : string :=
  if Nat.ltb n (String.length s) then String.substring 0 n s ++ "..." else s.

(** The values [list.extend] takes from its argument: the elements of a
    list, the characters of a string (its bytes, as strings are modelled
    here), the keys of an object; a TypeError for what cannot be
    iterated. *)
Definition iterate (v : jval) : outcome (list jval) :=
  match v with
  | JArr l => Ret l
  | JStr s => Ret (map (fun c => JStr (String c "")) (list_ascii_of_string s))
  | JObj kv => Ret (map (fun p => JStr (fst p)) kv)
  | _ => Raise (Agent.type_error "object is not iterable")
  end.

Definition max_iterations : nat := 10.

Definition canned_answer : string :=
  "User response: Please proceed with your best judgment.".

(** The [for] loop over [tool_uses]: the results collected so far and
    the [done] flag are carried along.  A tool name that is none of the
    three is passed over. *)
Fixpoint process_tools (E : Agent.env)
    (tool_uses : list (string * string * list (string * jval)))
    (tool_results : list tool_result) (done : bool) : M (list tool_result * bool) :=
  fun st =>
  match tool_uses with
  | [] => (Ret (tool_results, done), st)
  | (tool_use_id, tool_name, tool_input) :: rest =>
    if String.eqb tool_name "execute_code" then
      let code := dict_get tool_input "code" (JStr "") in
      let purpose := dict_get tool_input "purpose" (JStr "Execute code") in
      let st := say (Executing purpose) st in
      match Executor.execute (executor st) (Agent.snippet_of E code)
              Executor.default_timeout (world st) with
      | Hang => (Hang, st)
      | Raise e => (Raise e, st)
      | Ret (result, ex, w) =>
        let st := after_execute ex w st in
        if Executor.success result then
          let st := if negb (String.eqb (Executor.output result) "")
                    then say (Output (preview 300 (Executor.output result))) st else st in
          let st := match Executor.figures result with
                    | [] => st
                    | figs => say (Figures figs) (extend (map JStr figs) st)
                    end in
          let result_text :=
            if negb (String.eqb (Executor.output result) "")
            then "Output:" ++ Llm.newline ++ Executor.output result
            else "Code executed successfully." in
          let result_text :=
            match Executor.figures result with
            | [] => result_text
            | figs => result_text ++ Llm.newline ++ Llm.newline
                      ++ "Generated figures: " ++ join ", " figs
            end in
          process_tools E rest
            (tool_results ++ [Llm.format_tool_result tool_use_id result_text false]) done st
        else
          match Executor.error result with
          | None => (Raise (Agent.type_error "'NoneType' object is not subscriptable"), st)
          | Some error =>
            let st := say (ErrorLine (String.substring 0 200 error)) st in
            process_tools E rest
              (tool_results
               ++ [Llm.format_tool_result tool_use_id ("Error:" ++ Llm.newline ++ error) true])
              done st
          end
      end
    else if String.eqb tool_name "ask_clarifying_question" then
      let question := dict_get tool_input "question" (JStr "") in
      let st := say (Question question) st in
      process_tools E rest
        (tool_results ++ [Llm.format_tool_result tool_use_id canned_answer false]) done st
    else if String.eqb tool_name "present_results" then
      let summary := dict_get tool_input "summary" (JStr "") in
      let viz := dict_get tool_input "visualizations" (JArr []) in
      match iterate viz with
      | Ret vs =>
        let st := say (FinalResults summary) (extend vs st) in
        process_tools E rest
          (tool_results
           ++ [Llm.format_tool_result tool_use_id "Results presented to user." false])
          true st
      | Raise e => (Raise e, st)
      | Hang => (Hang, st)
      end
    else process_tools E rest tool_results done st
  end.

(** The [for iteration in range(max_iterations)] loop with [n]
    iterations left; it tells whether it was left by [break]. *)
Fixpoint loop (E : Agent.env) (n : nat) (iteration : Z) : M bool :=
  fun st =>
  match n with
  | O => (Ret false, st)
  | S n' =>
    let st := say (Iteration (iteration + 1) (Z.of_nat max_iterations)) st in
    let st := record_request st in
    match fst (Llm.send_message (Agent.create E (messages st)) Llm.default_max_retries) with
    | Raise e => (Raise e, st)
    | Hang => (Hang, st)
    | Ret None =>
      (Raise (Exn "AttributeError" "'NoneType' object has no attribute 'content'" ""), st)
    | Ret (Some response) =>
      let text_content := Llm.extract_text (content response) in
      let st := if negb (String.eqb text_content "")
                then say (Thinking (preview 200 text_content)) st else st in
      let tool_uses := Llm.extract_tool_use (content response) in
      if Agent.is_empty tool_uses && String.eqb (stop_reason response) "end_turn"
      then (Ret true, say Complete st)
      else
        let st := append_message (Message "assistant" (CBlocks (content response))) st in
        match process_tools E tool_uses [] false st with
        | (Ret (tool_results, done), st) =>
          let st := append_message (Message "user" (CResults tool_results)) st in
          if done then (Ret true, st) else loop E n' (iteration + 1) st
        | (Raise e, st) => (Raise e, st)
        | (Hang, st) => (Hang, st)
        end
    end
  end.

Definition initial_message (df_info query : string) : string :=
  "I have loaded a CSV file for analysis. Here is information about the data:"
  ++ Llm.newline ++ Llm.newline ++ df_info ++ Llm.newline ++ Llm.newline
  ++ "User query: " ++ query ++ Llm.newline ++ Llm.newline
  ++ "Please analyze this data to answer the user's question. Start by understanding the data, then write and execute code to perform the analysis. When done, use present_results to show your findings.".

(** [run_query], from the executor it has constructed on. *)
Definition run_query (E : Agent.env) (csv_path query : string)
    (ex : Executor.executor) (w : Executor.world) : outcome (list jval) * state :=
  let df_info := Agent.get_dataframe_info E ex w in
  let st := mkState [Message "user" (CText (initial_message df_info query))] [] ex w
              [Banner csv_path query] [] in
  match loop E max_iterations 0 st with
  | (Ret broken, st) =>
    let st := if broken then st else say MaxIterations st in
    (Ret (figures st), say (Total (figures st)) st)
  | (Raise e, st) => (Raise e, st)
  | (Hang, st) => (Hang, st)
  end.

End TestQuery.

(** * Vocabulary of the statements, and scenarios *)

Definition sample_response : response := Response [TextBlock "ok"] "end_turn".

Definition rate_limited : exn := Exn "RateLimitError" "429" "".

(** Two rate-limit errors, then a success. *)
Definition flaky : Llm.transport :=
  fun i => if Nat.ltb i 2 then Llm.RateLimitError rate_limited else Llm.Success sample_response.

(** A transport that is always rate limited. *)
Definition down : Llm.transport := fun _ => Llm.RateLimitError rate_limited.

Definition people : Executor.dataset :=
  Executor.Dataset ["name"; "age"; "salary"]
    [["Alice"; "25"; "50000"]; ["Bob"; "30"; "60000"]; ["Charlie"; "35"; "70000"]].

Definition ex0 : Executor.executor := Executor.mkExecutor "data.csv" "output" 0 0.

Definition w0 : Executor.world := Executor.mkWorld [people] (Some ["old.png"]) 0.

(** The snippet of test_execute_df_not_mutated: a new column, a dropped
    row, a print. *)
Definition mutating : Executor.snippet :=
  [Executor.SetCol "new_col" "x"; Executor.DropRow 0; Executor.Print "2"].


(** A snippet that prints after the deadline, and one that never ends. *)
Definition late : Executor.snippet := [Executor.Wait 31; Executor.Print "late"].
Definition forever : Executor.snippet := [Executor.Print "start"; Executor.Spin].


(** The snippet of the plotting tests: one saved plot. *)
Definition one_plot : Executor.snippet := [Executor.WriteFile "test_plot.png"].

Definition use_id (u : string * string * list (string * jval)) : string := fst (fst u).
Definition use_name (u : string * string * list (string * jval)) : string := snd (fst u).

(** Two agent states with the same conversation, request log and budget. *)
Definition same_talk (st st' : Agent.state) : Prop :=
  Agent.messages st' = Agent.messages st
  /\ Agent.sent st' = Agent.sent st
  /\ Agent.max_iterations st' = Agent.max_iterations st.

Ltac talk := unfold same_talk; simpl; auto.

(** A run of turns in which every model turn is followed by one user
    turn holding one result per invocation of the model turn, in order,
    with the invocation's identifier. *)
Inductive paired : list message -> Prop :=
| paired_nil : paired []
| paired_cons (bs : list block) (rs : list tool_result) (rest : list message) :
    map tool_use_id rs = map use_id (Llm.extract_tool_use bs) ->
    paired rest ->
    paired (Message "assistant" (CBlocks bs) :: Message "user" (CResults rs) :: rest).

(** A conversation that continues [base] with a first turn and answered
    model turns. *)
Definition answered (base : list message) (first : message) (conv : list message) : Prop :=
  exists tail, conv = (base ++ first :: tail)%list /\ paired tail.







Definition info : Executor.executor -> Executor.world -> string :=
  fun _ _ => "Shape: 3 rows x 3 columns".

(** A presenter that displays whatever it is handed. *)
Definition displays : Agent.event -> outcome unit := fun _ => Ret tt.

(** A user who answers, and a closed standard input. *)
Definition says_yes : jval -> outcome string := fun _ => Ret "yes".

(** Every code text prints a line; every code text calls [sys.exit()]. *)
Definition prints_one : string -> Executor.snippet := fun _ => [Executor.Print "1"].

(** A model that answers every conversation with the same turn. *)
Definition always (resp : response) : list message -> Llm.transport :=
  fun _ _ => Llm.Success resp.

Definition exec_turn : response :=
  Response [ToolUseBlock "1" "execute_code"
              [("code", JStr "print(1)"); ("purpose", JStr "test")]] "tool_use".

Definition present_input (summary : string) : list (string * jval) :=
  [("summary", JStr summary)].

Definition present_turn (summary : string) : response :=
  Response [ToolUseBlock "1" "present_results" (present_input summary)] "tool_use".

Definition ask_turn : response :=
  Response [ToolUseBlock "1" "ask_clarifying_question" [("question", JStr "Which column?")]]
    "tool_use".

Definition bad_viz_turn : response :=
  Response [ToolUseBlock "1" "present_results"
              [("summary", JStr "Done"); ("visualizations", JStr "output/chart.png")]]
    "tool_use".

Definition cut_turn : response := Response [TextBlock "Let me"] "max_tokens".

Definition keeps_going : Agent.env := Agent.mkEnv (always exec_turn) prints_one says_yes info displays.
Definition presents (summary : string) : Agent.env :=
  Agent.mkEnv (always (present_turn summary)) prints_one says_yes info displays.
Definition bad_viz : Agent.env := Agent.mkEnv (always bad_viz_turn) prints_one says_yes info displays.
Definition cut_short : Agent.env := Agent.mkEnv (always cut_turn) prints_one says_yes info displays.

Definition fresh (max_iterations : Z) : Agent.state := Agent.init max_iterations ex0 w0.

Definition asked : message :=
  Message "user" (CText (Agent.initial_message "Shape: 3 rows x 3 columns" "Quick analysis")).

(** One rate-limit error, then an exception the adapter does not catch. *)
Definition broken_after_one : Llm.transport :=
  fun i => if Nat.eqb i 0 then Llm.RateLimitError rate_limited
           else Llm.OtherError (Exn "ValueError" "bad request body" "").

(** The text a sequence of [print]s leaves on standard output. *)
Definition printed (lines : list string) : string := fold_right String.append "" lines.

(** A snippet that does not loop for ever. *)
Definition halts (code : Executor.snippet) : bool :=
  forallb (fun act => match act with Executor.Spin => false | _ => true end) code.

(** The name [execute] gives the next figure it saves by itself. *)
Definition next_figure (self : Executor.executor) : string :=
  "figure_" ++ string_of_nat (S (Executor._figure_counter self)) ++ ".png".

(** The executor after [n] figures saved by [execute] itself. *)
Definition counted (self : Executor.executor) (n : nat) : Executor.executor :=
  Executor.mkExecutor (Executor.csv_path self) (Executor.output_dir self) (Executor.df self)
    (n + Executor._figure_counter self).

(** The world [execute] leaves when the snippet touched neither the
    table nor the directory: one more DataFrame, no open figure. *)
Definition after_copy (self : Executor.executor) (w : Executor.world)
    (d : option (list string)) : Executor.world :=
  Executor.mkWorld
    (Executor.objects w ++ [Executor.deref (Executor.objects w) (Executor.df self)])%list d 0.

Ltac sandbox_steps :=
  cbn [Executor.run_code Executor.step Executor.with_world Executor.w_world
       Executor.fignums Executor.dir Executor.objects Executor.stdout_buffer
       Executor.elapsed Executor.stderr_buffer].

(** The query turn [run] opens with. *)
Definition query_turn (E : Agent.env) (query : string) (st : Agent.state) : message :=
  Message "user"
    (CText (Agent.initial_message
              (Agent.get_dataframe_info E (Agent.executor st) (Agent.world st)) query)).

(** A value that can be put in a set. *)
Definition hashable (v : jval) : Prop := Agent.hash_key v <> None.

(** The text [_handle_execute_code] returns for a result. *)
Definition execution_text (r : Executor.ExecutionResult) : string :=
  if Executor.success r then
    (if negb (String.eqb (Executor.output r) "")
     then "Output:" ++ Llm.newline ++ Executor.output r
     else "Code executed successfully (no output).")
    ++ match Executor.figures r with
       | [] => ""
       | figs => Llm.newline ++ Llm.newline ++ "Generated figures: " ++ join ", " figs
       end
  else "Error:" ++ Llm.newline ++ Agent.show_error_field (Executor.error r).

(** The agent after an execution: the executor and the world [execute]
    left, the execution shown, the new artifacts tracked. *)
Definition after_execution (st : Agent.state) (code purpose : jval)
    (r : Executor.ExecutionResult) (ex : Executor.executor) (w : Executor.world) : Agent.state :=
  Agent.mkState (Agent.max_iterations st) (Agent.messages st)
    (Agent.figures st ++ Executor.figures r) ex w
    (Agent.events st ++ [Agent.ShowCodeExecution code purpose r]) (Agent.sent st).

(** [st'] continues [st]: conversation, tracked figures, presenter log
    and request log have only been appended to, by at most [n] requests,
    and the budget is the same. *)
Definition continues (n : nat) (st st' : Agent.state) : Prop :=
  (exists ms, Agent.messages st' = (Agent.messages st ++ ms)%list)
  /\ (exists figs, Agent.figures st' = (Agent.figures st ++ figs)%list)
  /\ (exists evs, Agent.events st' = (Agent.events st ++ evs)%list)
  /\ (exists reqs, Agent.sent st' = (Agent.sent st ++ reqs)%list /\ List.length reqs <= n)
  /\ Agent.max_iterations st' = Agent.max_iterations st.

(** Every code text divides by zero; a user who answers [a]. *)
Definition divides_by_zero : string -> Executor.snippet :=
  fun _ => [Executor.Throw (Exn "ZeroDivisionError" "division by zero" "")].
Definition faulty_code : Agent.env :=
  Agent.mkEnv (always exec_turn) divides_by_zero says_yes info displays.
Definition answers (a : string) : Agent.env :=
  Agent.mkEnv (always ask_turn) prints_one (fun _ => Ret a) info displays.

(** A reasoning client that is always rate limited. *)
Definition offline : Agent.env := Agent.mkEnv (fun _ => down) prints_one says_yes info displays.

(** The three tools [run_query] knows, and the one that ends it. *)
Definition known_tool (u : string * string * list (string * jval)) : bool :=
  String.eqb (use_name u) "execute_code"
  || String.eqb (use_name u) "ask_clarifying_question"
  || String.eqb (use_name u) "present_results".

Definition presents_results (u : string * string * list (string * jval)) : bool :=
  String.eqb (use_name u) "present_results".

(** The state [run_query] starts its loop in. *)
Definition query_start (E : Agent.env) (csv_path query : string)
    (ex : Executor.executor) (w : Executor.world) : TestQuery.state :=
  TestQuery.mkState
    [Message "user" (CText (TestQuery.initial_message (Agent.get_dataframe_info E ex w) query))]
    [] ex w [TestQuery.Banner csv_path query] [].

(** A model that asks for a tool the loops do not know. *)
Definition chart_turn : response :=
  Response [ToolUseBlock "7" "make_chart" []; ToolUseBlock "8" "present_results" []] "tool_use".



(** A conversation that is answered but, at most, for one last model turn. *)
Definition pending (base : list message) (first : message) (conv : list message) : Prop :=
  answered base first conv
  \/ exists conv0 bs,
       answered base first conv0
       /\ conv = (conv0 ++ [Message "assistant" (CBlocks bs)])%list.






(** A presenter that, as rich does, rejects a text with a closing tag
    that matches no open one. *)
Definition markup_error : exn :=
  Exn "MarkupError" "closing tag '[/b]' at position 4 doesn't match any open tag" "".
Definition rejects (text : string) : Agent.event -> outcome unit :=
  fun ev =>
  match ev with
  | Agent.ShowThinking m => if String.eqb m text then Raise markup_error else Ret tt
  | _ => Ret tt
  end.

(** A turn cut short whose text rich rejects. *)
Definition tagged_turn : response := Response [TextBlock "see [/b] here"] "max_tokens".
Definition tagged : Agent.env :=
  Agent.mkEnv (always tagged_turn) prints_one says_yes info (rejects "see [/b] here").




(** * Properties *)

(** ** The adapter's retry loop *)

Lemma backoff_snoc (k : nat) :
  Llm.backoff (S k) = (Llm.backoff k ++ [(2 ^ Z.of_nat k)%Z])%list.
Proof.
  unfold Llm.backoff. rewrite seq_S, map_app. reflexivity.
Qed.

(** From attempt [a] on, with the log of [a] failed attempts, the loop
    reaches the first success at attempt [a + d]. *)
Lemma send_loop_success (create : Llm.transport) (R : Z) (r : response) (d : nat) :
  forall (a n : nat),
    (Z.of_nat (a + d) < R)%Z ->
    d < n ->
    (forall i, a <= i < a + d -> Llm.transient (create i)) ->
    create (a + d) = Llm.Success r ->
    Llm.send_loop create R n a (Llm.Log a (Llm.backoff a))
    = (Ret (Some r), Llm.Log (S (a + d)) (Llm.backoff (a + d))).
Proof.
  induction d as [|d IH]; intros a n HR Hn Htr Hok.
  - destruct n as [|n]; [lia|]. simpl. rewrite Nat.add_0_r in *. rewrite Hok. reflexivity.
  - destruct n as [|n]; [lia|]. simpl.
    assert (Ha : Llm.transient (create a)) by (apply Htr; lia).
    assert (Hlt : (Z.of_nat a <? R - 1)%Z = true) by (apply Z.ltb_lt; lia).
    replace (a + S d) with (S a + d) in * by lia.
    destruct (create a) eqn:Hc; simpl in Ha; try contradiction;
      rewrite Hlt, <- backoff_snoc; apply IH; auto; try lia;
      intros i Hi; apply Htr; lia.
Qed.

(** From attempt [a] on, when every remaining attempt fails with an error
    the adapter catches, the last one is raised. *)
Lemma send_loop_exhausted (create : Llm.transport) (R : Z) (n : nat) :
  forall (a : nat),
    Z.of_nat (a + S n) = R ->
    (forall i, a <= i < a + S n -> Llm.transient (create i)) ->
    exists e, Llm.raised (create (a + n)) = Some e /\
      Llm.send_loop create R (S n) a (Llm.Log a (Llm.backoff a))
      = (Raise e, Llm.Log (S (a + n)) (Llm.backoff (a + n))).
Proof.
  induction n as [|n IH]; intros a HR Htr.
  - assert (Ha : Llm.transient (create a)) by (apply Htr; lia).
    assert (Hlt : (Z.of_nat a <? R - 1)%Z = false) by (apply Z.ltb_ge; lia).
    rewrite Nat.add_0_r. simpl.
    destruct (create a) eqn:Hc; simpl in Ha; try contradiction;
      rewrite Hlt; eexists; split; reflexivity.
  - assert (Ha : Llm.transient (create a)) by (apply Htr; lia).
    assert (Hlt : (Z.of_nat a <? R - 1)%Z = true) by (apply Z.ltb_lt; lia).
    destruct (IH (S a)) as [e [He Hrun]]; [lia | intros i Hi; apply Htr; lia |].
    replace (a + S n) with (S a + n) by lia.
    exists e. split; [exact He|].
    change (Llm.send_loop create R (S (S n)) a (Llm.Log a (Llm.backoff a)))
      with (let lg1 := Llm.Log (S a) (Llm.backoff a) in
            let retry e :=
              if (Z.of_nat a <? R - 1)%Z then
                Llm.send_loop create R (S n) (S a)
                  (Llm.Log (S a) (Llm.backoff a ++ [(2 ^ Z.of_nat a)%Z]))
              else (Raise e, lg1) in
            match create a with
            | Llm.Success r => (Ret (Some r), lg1)
            | Llm.RateLimitError e => retry e
            | Llm.APIError e => retry e
            | Llm.OtherError e => (Raise e, lg1)
            end).
    cbv zeta. rewrite Hlt, <- backoff_snoc.
    destruct (create a) eqn:Hc; simpl in Ha; try contradiction; exact Hrun.
Qed.

(** C7: with K transient failures followed by a success, K below the
    retry bound, [send_message] makes exactly K+1 attempts, sleeps 1, 2,
    4, ... (K waits, each twice the one before) and returns the successful
    response; and when all attempts up to the bound fail, it makes no
    further attempt and raises the last error. *)
Theorem send_message_retries (create : Llm.transport) (max_retries : Z) :
  (forall (K : nat) (r : response),
      (Z.of_nat K < max_retries)%Z ->
      (forall i, i < K -> Llm.transient (create i)) ->
      create K = Llm.Success r ->
      Llm.send_message create max_retries
      = (Ret (Some r), Llm.Log (K + 1) (Llm.backoff K)))
  /\
  ((0 < max_retries)%Z ->
   (forall i, (Z.of_nat i < max_retries)%Z -> Llm.transient (create i)) ->
   exists e,
     Llm.raised (create (Z.to_nat max_retries - 1)) = Some e /\
     Llm.send_message create max_retries
     = (Raise e, Llm.Log (Z.to_nat max_retries) (Llm.backoff (Z.to_nat max_retries - 1)))).
Proof.
  split.
  - intros K r HK Htr Hok. unfold Llm.send_message.
    rewrite Nat.add_1_r.
    apply (send_loop_success create max_retries r K 0 (Z.to_nat max_retries)); simpl; auto; try lia.
    intros i Hi. apply Htr. lia.
  - intros Hpos Htr. unfold Llm.send_message.
    destruct (Z.to_nat max_retries) as [|n] eqn:Hn; [lia|].
    destruct (send_loop_exhausted create max_retries n 0) as [e [He Hrun]].
    + simpl. lia.
    + intros i Hi. apply Htr. lia.
    + exists e. simpl in *. rewrite Nat.sub_0_r. split; assumption.
Qed.

Lemma send_message_retries_witness :
  Llm.send_message flaky 3 = (Ret (Some sample_response), Llm.Log 3 [1; 2]%Z)
  /\ exists e, Llm.raised (down 2) = Some e /\
       Llm.send_message down 3 = (Raise e, Llm.Log 3 [1; 2]%Z).
Proof.
  split.
  - apply (proj1 (send_message_retries flaky 3) 2 sample_response).
    + lia.
    + intros i Hi. unfold flaky. destruct (Nat.ltb_spec i 2); [exact I | lia].
    + reflexivity.
  - apply (proj2 (send_message_retries down 3)).
    + lia.
    + intros i Hi. exact I.
Defined.

(** ** The sandbox: isolation of the dataset *)

Lemma store_length (h : Executor.heap) (a : Executor.addr) (d : Executor.dataset) :
  List.length (Executor.store h a d) = List.length h.
Proof.
  revert a. induction h as [|x h IH]; intros [|a]; simpl; auto.
Qed.

Lemma deref_store_other (h : Executor.heap) (a b : Executor.addr) (d : Executor.dataset) :
  a <> b -> Executor.deref (Executor.store h a d) b = Executor.deref h b.
Proof.
  unfold Executor.deref. revert a b.
  induction h as [|x h IH]; intros [|a] [|b] Hab; simpl; auto; try lia.
Qed.

(** One action writes no DataFrame but the one bound to [df] in the
    namespace, and allocates none. *)
Lemma step_frame (a : Executor.addr) (act : Executor.action) (s s' : Executor.wstate)
    (e : Executor.wend) :
  Executor.step a act s = (e, s') ->
  List.length (Executor.objects (Executor.w_world s'))
  = List.length (Executor.objects (Executor.w_world s))
  /\ forall b, a <> b ->
       Executor.deref (Executor.objects (Executor.w_world s')) b
       = Executor.deref (Executor.objects (Executor.w_world s)) b.
Proof.
  intros H. destruct act; simpl in H;
    repeat match type of H with
           | context [match ?x with _ => _ end] => destruct x
           end;
    inversion H; subst; clear H; simpl; split; auto using store_length;
    intros b Hab; apply deref_store_other; assumption.
Qed.

Lemma run_code_frame (a : Executor.addr) (code : Executor.snippet) :
  forall (s s' : Executor.wstate) (e : Executor.wend),
    Executor.run_code a code s = (e, s') ->
    List.length (Executor.objects (Executor.w_world s'))
    = List.length (Executor.objects (Executor.w_world s))
    /\ forall b, a <> b ->
         Executor.deref (Executor.objects (Executor.w_world s')) b
         = Executor.deref (Executor.objects (Executor.w_world s)) b.
Proof.
  induction code as [|act rest IH]; intros s s' e H; simpl in H.
  - inversion H; subst. auto.
  - destruct (Executor.step a act s) as [e1 s1] eqn:Hstep.
    destruct (step_frame _ _ _ _ _ Hstep) as [Hlen Hder].
    destruct e1; try (inversion H; subst; auto; fail).
    destruct (IH _ _ _ H) as [Hlen' Hder'].
    split; [congruence|]. intros b Hab. rewrite Hder', Hder; auto.
Qed.

(** Whatever [execute] returns, the heap it leaves holds the canonical
    table unchanged and the executor still points at it. *)
Lemma execute_frame (self self' : Executor.executor) (code : Executor.snippet)
    (timeout : nat) (w w' : Executor.world) (r : Executor.ExecutionResult) :
  Executor.df self < List.length (Executor.objects w) ->
  Executor.execute self code timeout w = Ret (r, self', w') ->
  Executor.df self' = Executor.df self
  /\ Executor.output_dir self' = Executor.output_dir self
  /\ List.length (Executor.objects w) < List.length (Executor.objects w')
  /\ Executor.deref (Executor.objects w') (Executor.df self)
     = Executor.deref (Executor.objects w) (Executor.df self).
Proof.
  intros Hdf H. unfold Executor.execute, Executor.copy in H.
  match type of H with
  | context [Executor.run_code ?a ?c ?s] => destruct (Executor.run_code a c s) as [e s1] eqn:Hrun
  end.
  destruct (run_code_frame _ _ _ _ _ Hrun) as [Hlen Hder]. simpl in Hlen, Hder.
  assert (Hobj : List.length (Executor.objects w)
                 < List.length (Executor.objects (Executor.w_world s1))).
  { rewrite Hlen, length_app. simpl. lia. }
  assert (Hkeep : Executor.deref (Executor.objects (Executor.w_world s1)) (Executor.df self)
                  = Executor.deref (Executor.objects w) (Executor.df self)).
  { rewrite Hder by lia. unfold Executor.deref. apply app_nth1. assumption. }
  destruct e; try discriminate;
    repeat match type of H with
           | context [if ?x then _ else _] => destruct x
           | context [let '(_, _) := ?x in _] => destruct x as [[? ?] ?]
           | context [match ?x with Some _ => _ | None => _ end] => destruct x
           end;
    try discriminate; inversion H; subst; simpl; auto.
Qed.

(** C3: an execution, whatever its snippet does to the copy bound to
    [df], leaves the canonical dataset as it was: the executor holds the
    same object, the object holds the same table, and the copy the next
    invocation binds has the shape and the columns of the original. *)
Theorem execute_isolates_dataset (self self' : Executor.executor) (code : Executor.snippet)
    (timeout : nat) (w w' : Executor.world) (r : Executor.ExecutionResult) :
  Executor.df self < List.length (Executor.objects w) ->
  Executor.execute self code timeout w = Ret (r, self', w') ->
  let canonical := Executor.deref (Executor.objects w) (Executor.df self) in
  let '(h, a) := Executor.copy (Executor.objects w') (Executor.df self') in
  Executor.deref (Executor.objects w') (Executor.df self') = canonical
  /\ a <> Executor.df self'
  /\ Executor.shape (Executor.deref h a) = Executor.shape canonical
  /\ Executor.columns (Executor.deref h a) = Executor.columns canonical.
Proof.
  intros Hdf H. destruct (execute_frame _ _ _ _ _ _ _ Hdf H) as [Hsame [_ [Hlen Hkeep]]].
  simpl. rewrite Hsame.
  assert (Hcopy : Executor.deref
                    (Executor.objects w' ++ [Executor.deref (Executor.objects w') (Executor.df self)])%list
                    (List.length (Executor.objects w'))
                  = Executor.deref (Executor.objects w) (Executor.df self)).
  { unfold Executor.deref at 1. rewrite app_nth2 by lia. rewrite Nat.sub_diag. simpl. exact Hkeep. }
  rewrite Hcopy. repeat split; auto. lia.
Qed.

Lemma execute_isolates_dataset_witness :
  exists r self' w',
    Executor.execute ex0 mutating 30 w0 = Ret (r, self', w')
    /\ Executor.shape (Executor.deref (Executor.objects w') 1) = (2, 4)
    /\ Executor.deref (Executor.objects w') (Executor.df self') = people
    /\ Executor.shape (Executor.deref (Executor.objects w') (Executor.df self')) = (3, 3).
Proof.
  eexists; eexists; eexists.
  split; [reflexivity|].
  split; [reflexivity|].
  assert (H := execute_isolates_dataset ex0 _ mutating 30 w0 _ _
                 (Nat.lt_0_succ 0) eq_refl).
  simpl in H. destruct H as [H1 _]. split; [exact H1 | reflexivity].
Defined.

(** ** The sandbox: what reaches the result *)





(** ** The sandbox: the timeout *)

(** C4: on a snippet that outlives the timeout, [execute] waits for the
    worker before it answers: the output holds what the snippet printed
    after the deadline, though nothing was buffered when the timeout
    elapsed, and on a snippet that never ends [execute] does not return. *)
Theorem execute_timeout_waits_for_worker :
  (exists self' w',
      Executor.execute ex0 late 30 w0
      = Ret (Executor.mkResult false "late" (Some (Executor.timeout_msg 30)) [], self', w')
      /\ Executor.output_at_timeout ex0 late 30 w0 = "")
  /\ Executor.execute ex0 forever 30 w0 = Hang
  /\ Executor.output_at_timeout ex0 forever 30 w0 = "start".
Proof.
  split; [eexists; eexists; split; reflexivity|].
  split; reflexivity.
Qed.

(** ** The sandbox: new artifacts *)

Lemma mem_In (x : string) (l : list string) : Executor.mem x l = true <-> In x l.
Proof.
  induction l as [|y l IH]; simpl.
  - split; [discriminate | contradiction].
  - rewrite orb_true_iff, IH, String.eqb_eq. split; intros [H|H]; auto.
Qed.

Lemma mem_false (x : string) (l : list string) : Executor.mem x l = false <-> ~ In x l.
Proof.
  rewrite <- mem_In. destruct (Executor.mem x l); split; congruence.
Qed.

Lemma dedup_In (x : string) (l : list string) : In x (Executor.dedup l) <-> In x l.
Proof.
  induction l as [|y l IH]; simpl; [tauto|].
  destruct (Executor.mem y l) eqn:Hm; simpl; rewrite IH.
  - apply mem_In in Hm. split; [auto | intros [H|H]; subst; auto].
  - tauto.
Qed.

Lemma dedup_NoDup (l : list string) : NoDup (Executor.dedup l).
Proof.
  induction l as [|y l IH]; simpl; [constructor|].
  destruct (Executor.mem y l) eqn:Hm; auto.
  constructor; auto. rewrite dedup_In. apply mem_false. assumption.
Qed.

Lemma insert_perm (x : string) (l : list string) :
  Permutation (Executor.insert x l) (x :: l).
Proof.
  induction l as [|y l IH]; simpl; auto.
  destruct (String.leb x y); auto.
  rewrite IH. apply perm_swap.
Qed.

Lemma sorted_perm (l : list string) : Permutation (Executor.sorted l) l.
Proof.
  induction l as [|x l IH]; simpl; auto.
  unfold Executor.sorted in *. simpl. rewrite insert_perm. auto.
Qed.




Lemma set_diff_In (x : string) (a b : list string) :
  In x (Executor.set_diff a b) <-> In x a /\ ~ In x b.
Proof.
  unfold Executor.set_diff. rewrite filter_In, negb_true_iff, mem_false. tauto.
Qed.



(** What a successful execution returns as artifacts. *)
Lemma execute_success_figures (self self' : Executor.executor) (code : Executor.snippet)
    (timeout : nat) (w w' : Executor.world) (r : Executor.ExecutionResult) :
  Executor.execute self code timeout w = Ret (r, self', w') ->
  Executor.success r = true ->
  Executor.figures r
  = Executor.sorted (Executor.set_diff (Executor._get_existing_figures self' w')
                                       (Executor._get_existing_figures self w)).
Proof.
  intros H Hok. unfold Executor.execute, Executor.copy in H.
  match type of H with
  | context [Executor.run_code ?a ?c ?s] => destruct (Executor.run_code a c s) as [e s1]
  end.
  destruct e; try discriminate;
    repeat match type of H with
           | context [if ?x then _ else _] => destruct x
           | context [let '(_, _) := ?x in _] => destruct x as [[? ?] ?]
           | context [match ?x with Some _ => _ | None => _ end] => destruct x
           end;
    try discriminate; inversion H; subst; simpl in *; try discriminate; reflexivity.
Qed.

Lemma append_cancel (p a b : string) : (p ++ a = p ++ b)%string -> a = b.
Proof.
  induction p as [|c p IH]; simpl; intros H; [exact H|].
  inversion H. auto.
Qed.

Lemma path_of_inj (d a b : string) : Executor.path_of d a = Executor.path_of d b -> a = b.
Proof.
  unfold Executor.path_of. intros H.
  apply append_cancel in H. apply append_cancel in H. exact H.
Qed.

Lemma singleton_list (p : string) (l : list string) :
  NoDup l -> (forall q, In q l <-> q = p) -> l = [p].
Proof.
  intros Hnd H. destruct l as [|x l].
  - exfalso. apply (proj2 (H p) eq_refl).
  - assert (x = p) by (apply H; left; reflexivity). subst x.
    destruct l as [|y l]; [reflexivity|].
    assert (y = p) by (apply H; right; left; reflexivity). subst y.
    inversion Hnd; subst. exfalso. apply H2. left. reflexivity.
Qed.






(** ** The orchestrator: what the handlers leave alone *)

Lemma same_talk_refl (st : Agent.state) : same_talk st st.
Proof. unfold same_talk. auto. Qed.

Lemma same_talk_trans (a b c : Agent.state) : same_talk a b -> same_talk b c -> same_talk a c.
Proof. unfold same_talk. intros [? [? ?]] [? [? ?]]. repeat split; congruence. Qed.

Lemma handle_execute_code_talk (E : Agent.env) (input : list (string * jval)) (st : Agent.state) :
  same_talk st (snd (Agent._handle_execute_code E input st)).
Proof.
  unfold Agent._handle_execute_code, Agent.show.
  destruct (Executor.execute _ _ _ _) as [[[r ex] w]|e|]; try solve [talk].
  destruct (Agent.present E _) as [[]|e|]; try solve [talk].
  destruct (Executor.success r), (Executor.figures r); talk.
Qed.

Lemma handle_tool_call_talk (E : Agent.env) (name : string) (input : list (string * jval))
    (st : Agent.state) :
  same_talk st (snd (Agent._handle_tool_call E name input st)).
Proof.
  unfold Agent._handle_tool_call.
  destruct (String.eqb name "execute_code"); [apply handle_execute_code_talk|].
  destruct (String.eqb name "ask_clarifying_question").
  { unfold Agent._handle_ask_question. destruct (Agent.answer E _); talk. }
  destruct (String.eqb name "present_results"); [|talk].
  unfold Agent._handle_present_results, Agent.show.
  destruct (dict_get input "visualizations" (JArr [])); try solve [talk].
  destruct (Agent.to_set _ _); try solve [talk].
  destruct (Agent.present E _) as [[]|e|]; talk.
Qed.

(** The tool loop touches neither the conversation nor the request log,
    and when it returns it has added one result per invocation, in
    order, each carrying the identifier of its invocation. *)
Lemma process_tools_results (E : Agent.env) (uses : list (string * string * list (string * jval))) :
  forall (fs : jval) (rs : list tool_result) (st : Agent.state),
    same_talk st (snd (Agent.process_tools E uses fs rs st))
    /\ forall fs' rs', fst (Agent.process_tools E uses fs rs st) = Ret (fs', rs') ->
         map tool_use_id rs' = (map tool_use_id rs ++ map use_id uses)%list.
Proof.
  induction uses as [|[[id name] input] rest IH]; intros fs rs st; simpl.
  - split; [apply same_talk_refl|]. intros fs' rs' H. inversion H. rewrite app_nil_r. reflexivity.
  - pose proof (handle_tool_call_talk E name input st) as Htalk.
    destruct (Agent._handle_tool_call E name input st) as [[result|e|] st1]; simpl in Htalk;
      try (split; [exact Htalk | intros; discriminate]).
    assert (Hstep : forall fs1 r1,
               same_talk st (snd (Agent.process_tools E rest fs1 (rs ++ [r1]) st1))
               /\ forall fs' rs',
                   fst (Agent.process_tools E rest fs1 (rs ++ [r1]) st1) = Ret (fs', rs') ->
                   tool_use_id r1 = id ->
                   map tool_use_id rs' = (map tool_use_id rs ++ id :: map use_id rest)%list).
    { intros fs1 r1. destruct (IH fs1 (rs ++ [r1])%list st1) as [Ht Hr]. split.
      - eapply same_talk_trans; eauto.
      - intros fs' rs' H Hid. rewrite (Hr _ _ H), map_app, <- app_assoc. simpl.
        rewrite Hid. reflexivity. }
    destruct (String.eqb name "present_results");
      [|destruct (String.eqb name "ask_clarifying_question")];
      match goal with
      | |- context [Agent.process_tools E rest ?f (rs ++ [?r]) st1] =>
        destruct (Hstep f r) as [Ht Hr]; split; [exact Ht|];
          intros fs' rs' H; apply (Hr _ _ H); reflexivity
      end.
Qed.

(** ** The orchestrator: the tool-result protocol *)

Lemma paired_app (l1 l2 : list message) : paired l1 -> paired l2 -> paired (l1 ++ l2).
Proof.
  induction 1; simpl; auto. intros. constructor; auto.
Qed.

Lemma paired_snoc (tail : list message) (bs : list block) (rs : list tool_result) :
  paired tail ->
  map tool_use_id rs = map use_id (Llm.extract_tool_use bs) ->
  paired (tail ++ [Message "assistant" (CBlocks bs); Message "user" (CResults rs)]).
Proof.
  intros Ht Hrs. apply paired_app; auto. constructor; auto. constructor.
Qed.

Lemma loop_S (E : Agent.env) (n : nat) (it : Z) (st : Agent.state) :
  Agent.loop E (S n) it st
  = let iteration := (it + 1)%Z in
    let st1 := Agent.record_request
                 (Agent.emit (Agent.ShowThinking (Agent.thinking iteration (Agent.max_iterations st))) st) in
    match fst (Llm.send_message (Agent.create E (Agent.messages st1)) Llm.default_max_retries) with
    | Raise e =>
      if base_only e then (Raise e, st1)
      else
        match Agent.show E (Agent.ShowError ("API Error: " ++ exn_msg e)) st1 with
        | (Ret _, st2) => (Ret (iteration, JNull), st2)
        | (Raise e', st2) => (Raise e', st2)
        | (Hang, st2) => (Hang, st2)
        end
    | Hang => (Hang, st1)
    | Ret None =>
      (Raise (Exn "AttributeError" "'NoneType' object has no attribute 'content'" ""), st1)
    | Ret (Some response) =>
      let text_content := Llm.extract_text (content response) in
      match Agent.show_text E text_content st1 with
      | (Raise e, st2) => (Raise e, st2)
      | (Hang, st2) => (Hang, st2)
      | (Ret _, st2) =>
        let tool_uses := Llm.extract_tool_use (content response) in
        if Agent.is_empty tool_uses && String.eqb (stop_reason response) "end_turn"
        then (Ret (iteration, py_or (JStr text_content) (JStr "Analysis complete.")), st2)
        else
          let st3 := Agent.append_message (Message "assistant" (CBlocks (content response))) st2 in
          match Agent.process_tools E tool_uses JNull [] st3 with
          | (Ret (final_summary, tool_results), st4) =>
            let st5 := Agent.append_message (Message "user" (CResults tool_results)) st4 in
            if negb (Agent.is_none final_summary)
            then (Ret (iteration, final_summary), st5)
            else Agent.loop E n iteration st5
          | (Raise e, st4) => (Raise e, st4)
          | (Hang, st4) => (Hang, st4)
          end
      end
    end.
Proof. reflexivity. Qed.

(** What a call on the presenter leaves: the state with the call
    logged, whatever the call did. *)
Lemma show_state (E : Agent.env) (ev : Agent.event) (st : Agent.state) :
  snd (Agent.show E ev st) = Agent.emit ev st.
Proof. reflexivity. Qed.

Lemma show_text_state (E : Agent.env) (text : string) (st : Agent.state) :
  snd (Agent.show_text E text st) = st
  \/ snd (Agent.show_text E text st) = Agent.emit (Agent.ShowThinking text) st.
Proof.
  unfold Agent.show_text. destruct (negb _); simpl; auto.
Qed.

Lemma show_text_talk (E : Agent.env) (text : string) (st : Agent.state) :
  same_talk st (snd (Agent.show_text E text st)).
Proof.
  destruct (show_text_state E text st) as [H|H]; rewrite H; talk.
Qed.

Lemma answered_snoc (base : list message) (first : message) (conv : list message)
    (bs : list block) (rs : list tool_result) :
  answered base first conv ->
  map tool_use_id rs = map use_id (Llm.extract_tool_use bs) ->
  answered base first
    ((conv ++ [Message "assistant" (CBlocks bs)]) ++ [Message "user" (CResults rs)]).
Proof.
  intros [tail [Hc Ht]] Hrs. subst conv.
  exists (tail ++ [Message "assistant" (CBlocks bs); Message "user" (CResults rs)])%list.
  split; [|apply paired_snoc; assumption].
  repeat (rewrite <- app_assoc; simpl). reflexivity.
Qed.

(** The loop invariant: every conversation the loop sends is answered,
    and so is the conversation it returns with; when the loop is left by
    an exception or hangs, the conversation is answered up to, at most,
    one last model turn. *)
Lemma loop_protocol (E : Agent.env) (base : list message) (first : message) (n : nat) :
  forall (it : Z) (st : Agent.state),
    answered base first (Agent.messages st) ->
    (exists news,
        Agent.sent (snd (Agent.loop E n it st)) = (Agent.sent st ++ news)%list
        /\ Forall (answered base first) news)
    /\ (forall x, fst (Agent.loop E n it st) = Ret x ->
          answered base first (Agent.messages (snd (Agent.loop E n it st))))
    /\ pending base first (Agent.messages (snd (Agent.loop E n it st))).
Proof.
  induction n as [|n IH]; intros it st Hst.
  - simpl. split; [exists []; rewrite app_nil_r; auto|]. split; [auto | left; exact Hst].
  - rewrite loop_S. cbv zeta.
    set (st1 := Agent.record_request _).
    assert (Hm1 : Agent.messages st1 = Agent.messages st) by reflexivity.
    assert (Hs1 : Agent.sent st1 = (Agent.sent st ++ [Agent.messages st])%list) by reflexivity.
    clearbody st1.
    assert (Hone : forall st',
               Agent.sent st' = (Agent.sent st ++ [Agent.messages st])%list ->
               exists news, Agent.sent st' = (Agent.sent st ++ news)%list
                            /\ Forall (answered base first) news)
      by (intros st' Hs'; exists [Agent.messages st]; auto).
    assert (Hdone : forall (o : outcome (Z * jval)) st',
               Agent.messages st' = Agent.messages st ->
               Agent.sent st' = (Agent.sent st ++ [Agent.messages st])%list ->
               (exists news, Agent.sent st' = (Agent.sent st ++ news)%list
                             /\ Forall (answered base first) news)
               /\ (forall x, o = Ret x -> answered base first (Agent.messages st'))
               /\ pending base first (Agent.messages st')).
    { intros o st' Hm' Hs'. split; [apply Hone; exact Hs'|].
      rewrite Hm'. split; [auto | left; exact Hst]. }
    destruct (fst (Llm.send_message (Agent.create E (Agent.messages st1)) _)) as [[resp|]|e|];
      cbn [fst snd]; try (apply Hdone; assumption).
    2:{ destruct (base_only e); cbn [fst snd]; [apply Hdone; assumption|].
        unfold Agent.show. destruct (Agent.present E _) as [[]|e'|]; cbn [fst snd];
          apply Hdone; simpl; assumption. }
    pose proof (show_text_talk E (Llm.extract_text (content resp)) st1) as [Hm2 [Hs2 _]].
    destruct (Agent.show_text E _ st1) as [o2 st2]. cbn [snd] in Hm2, Hs2.
    rewrite Hm1 in Hm2. rewrite Hs1 in Hs2.
    destruct o2 as [[]|e|]; cbn [fst snd]; try (apply Hdone; assumption).
    destruct (Agent.is_empty _ && _); cbn [fst snd]; [apply Hdone; assumption|].
    set (st3 := Agent.append_message _ st2).
    assert (Hm3 : Agent.messages st3
                  = (Agent.messages st ++ [Message "assistant" (CBlocks (content resp))])%list)
      by (unfold st3; simpl; rewrite Hm2; reflexivity).
    assert (Hs3 : Agent.sent st3 = (Agent.sent st ++ [Agent.messages st])%list) by exact Hs2.
    clearbody st3.
    destruct (process_tools_results E (Llm.extract_tool_use (content resp)) JNull [] st3)
      as [[Hm4 [Hs4 _]] Hres].
    assert (Hleft : forall st4,
               Agent.messages st4 = Agent.messages st3 ->
               Agent.sent st4 = Agent.sent st3 ->
               (exists news, Agent.sent st4 = (Agent.sent st ++ news)%list
                             /\ Forall (answered base first) news)
               /\ pending base first (Agent.messages st4)).
    { intros st4 Hm Hs. split; [apply Hone; congruence|].
      right. exists (Agent.messages st), (content resp). split; [exact Hst | congruence]. }
    destruct (Agent.process_tools E _ JNull [] st3) as [[[fs rs]|e|] st4];
      cbn [fst snd] in *;
      try (destruct (Hleft st4 Hm4 Hs4) as [Hn Hp];
           split; [exact Hn|]; split; [intros; discriminate | exact Hp]).
    specialize (Hres fs rs eq_refl).
    set (st5 := Agent.append_message _ st4).
    assert (Hm5 : answered base first (Agent.messages st5)).
    { unfold st5. simpl. rewrite Hm4, Hm3. apply answered_snoc; assumption. }
    assert (Hs5 : Agent.sent st5 = (Agent.sent st ++ [Agent.messages st])%list).
    { unfold st5. simpl. rewrite Hs4. exact Hs3. }
    clearbody st5.
    destruct (negb (Agent.is_none fs)); cbn [fst snd].
    { split; [apply Hone; exact Hs5|]. split; [auto | left; exact Hm5]. }
    destruct (IH (it + 1)%Z st5 Hm5) as [[news [Hn Hall]] [Hret Hpend]].
    split; [|split; assumption].
    exists (Agent.messages st :: news). rewrite Hn, Hs5, <- app_assoc. simpl. auto.
Qed.

(** C2 as amended: in every run, each conversation passed to the
    reasoning client consists of the earlier turns, the query turn and
    model turns each followed at once by one user turn holding exactly
    one result per invocation, with its identifier; the conversation a
    run returns with has the same form, the turn that presented results
    included; and a run that is left by an exception, or hangs, leaves at
    most one model turn, the last, without its results. *)
Theorem run_answers_every_invocation (E : Agent.env) (query : string) (st : Agent.state) :
  let first := Message "user"
                 (CText (Agent.initial_message
                           (Agent.get_dataframe_info E (Agent.executor st) (Agent.world st)) query)) in
  let res := Agent.run E query st in
  (exists news,
      Agent.sent (snd res) = (Agent.sent st ++ news)%list
      /\ Forall (answered (Agent.messages st) first) news)
  /\ (forall v, fst res = Ret v -> answered (Agent.messages st) first (Agent.messages (snd res)))
  /\ pending (Agent.messages st) first (Agent.messages (snd res)).
Proof.
  intros first res. unfold res, Agent.run.
  set (st0 := Agent.append_message _ st).
  assert (H0 : answered (Agent.messages st) first (Agent.messages st0)).
  { exists []. split; [reflexivity | constructor]. }
  destruct (loop_protocol E (Agent.messages st) first
              (Z.to_nat (Agent.max_iterations st0)) 0 st0 H0) as [Hsent [Hret Hpend]].
  destruct (Agent.loop E _ 0 st0) as [[[it fs]|e|] st1]; cbn [fst snd] in *;
    try (split; [exact Hsent|]; split; [intros; discriminate | exact Hpend]).
  specialize (Hret _ eq_refl).
  destruct (_ && _); cbn [fst snd]; (split; [exact Hsent|]; split; [auto | left; exact Hret]).
Qed.

(** ** The orchestrator: a turn without tools that is no natural end *)

Lemma loop_sent_extends (E : Agent.env) (n : nat) :
  forall (it : Z) (st : Agent.state),
    exists news, Agent.sent (snd (Agent.loop E n it st)) = (Agent.sent st ++ news)%list.
Proof.
  induction n as [|n IH]; intros it st.
  - exists []. simpl. rewrite app_nil_r. reflexivity.
  - rewrite loop_S. cbv zeta.
    set (st1 := Agent.record_request _).
    assert (Hs1 : Agent.sent st1 = (Agent.sent st ++ [Agent.messages st])%list) by reflexivity.
    clearbody st1.
    destruct (fst (Llm.send_message (Agent.create E (Agent.messages st1)) _)) as [[resp|]|e|];
      cbn [fst snd]; try (exists [Agent.messages st]; exact Hs1).
    2:{ destruct (base_only e); cbn [fst snd]; [exists [Agent.messages st]; exact Hs1|].
        unfold Agent.show. destruct (Agent.present E _) as [[]|e'|]; cbn [fst snd];
          exists [Agent.messages st]; exact Hs1. }
    pose proof (show_text_talk E (Llm.extract_text (content resp)) st1) as [_ [Hs2 _]].
    destruct (Agent.show_text E _ st1) as [o2 st2]. cbn [snd] in Hs2. rewrite Hs1 in Hs2.
    destruct o2 as [[]|e|]; cbn [fst snd]; try (exists [Agent.messages st]; exact Hs2).
    destruct (Agent.is_empty _ && _); cbn [fst snd]; [exists [Agent.messages st]; exact Hs2|].
    set (st3 := Agent.append_message _ st2).
    assert (Hs3 : Agent.sent st3 = (Agent.sent st ++ [Agent.messages st])%list) by exact Hs2.
    clearbody st3.
    destruct (process_tools_results E (Llm.extract_tool_use (content resp)) JNull [] st3)
      as [[_ [Hs4 _]] _].
    destruct (Agent.process_tools E _ JNull [] st3) as [[[fs rs]|e|] st4]; cbn [fst snd] in *;
      try (exists [Agent.messages st]; rewrite Hs4; exact Hs3).
    destruct (negb (Agent.is_none fs)); cbn [fst snd].
    { exists [Agent.messages st]. simpl. rewrite Hs4. exact Hs3. }
    destruct (IH (it + 1)%Z (Agent.append_message (Message "user" (CResults rs)) st4))
      as [news Hn].
    exists (Agent.messages st :: news). rewrite Hn. simpl. rewrite Hs4, Hs3, <- app_assoc.
    reflexivity.
Qed.

(** C10 as amended: when the model's turn holds no tool invocation, its
    stop reason is not "end_turn", and its text is empty or the presenter
    displays it, the loop does not stop: it goes on from a state whose
    conversation has gained the model turn and a user turn with an empty
    list of results, and, when an iteration is left, the next request
    carries that conversation. *)
Theorem loop_continues_on_empty_turn (E : Agent.env) (n : nat) (it : Z)
    (st : Agent.state) (resp : response) :
  fst (Llm.send_message (Agent.create E (Agent.messages st)) Llm.default_max_retries)
  = Ret (Some resp) ->
  Llm.extract_tool_use (content resp) = [] ->
  stop_reason resp <> "end_turn" ->
  Llm.extract_text (content resp) = ""
  \/ Agent.present E (Agent.ShowThinking (Llm.extract_text (content resp))) = Ret tt ->
  exists st',
    Agent.loop E (S n) it st = Agent.loop E n (it + 1) st'
    /\ Agent.messages st'
       = (Agent.messages st
          ++ [Message "assistant" (CBlocks (content resp)); Message "user" (CResults [])])%list
    /\ Agent.sent st' = (Agent.sent st ++ [Agent.messages st])%list
    /\ (0 < n -> exists rest,
          Agent.sent (snd (Agent.loop E (S n) it st))
          = (Agent.sent st ++ [Agent.messages st; Agent.messages st'] ++ rest)%list).
Proof.
  intros Hsend Huses Hstop Hshown.
  assert (Hloop : exists st',
             Agent.loop E (S n) it st = Agent.loop E n (it + 1) st'
             /\ Agent.messages st'
                = (Agent.messages st
                   ++ [Message "assistant" (CBlocks (content resp));
                       Message "user" (CResults [])])%list
             /\ Agent.sent st' = (Agent.sent st ++ [Agent.messages st])%list).
  { rewrite loop_S. cbv zeta.
    set (st1 := Agent.record_request _).
    change (Agent.messages st1) with (Agent.messages st). rewrite Hsend, Huses.
    apply String.eqb_neq in Hstop. rewrite Hstop.
    unfold Agent.show_text, Agent.show.
    destruct Hshown as [Hnil | Hret].
    - rewrite Hnil. simpl. eexists. split; [reflexivity|].
      simpl. rewrite <- app_assoc. auto.
    - rewrite Hret. destruct (negb _); simpl; (eexists; split; [reflexivity|]);
        simpl; rewrite <- app_assoc; auto. }
  destruct Hloop as [st' [Heq [Hm Hs]]]. exists st'.
  split; [exact Heq|]. split; [exact Hm|]. split; [exact Hs|].
  intros Hn. rewrite Heq. destruct n as [|n]; [lia|].
  clear Hshown. rewrite loop_S. cbv zeta.
  set (st1 := Agent.record_request _).
  assert (Hs1 : Agent.sent st1 = (Agent.sent st ++ [Agent.messages st; Agent.messages st'])%list).
  { unfold st1. simpl. rewrite Hs, <- app_assoc. reflexivity. }
  clearbody st1.
  assert (Hdone : forall st2, Agent.sent st2 = Agent.sent st1 ->
             exists rest,
               Agent.sent st2
               = (Agent.sent st ++ [Agent.messages st; Agent.messages st'] ++ rest)%list).
  { intros st2 H2. exists []. rewrite app_nil_r, H2. exact Hs1. }
  destruct (fst (Llm.send_message (Agent.create E (Agent.messages st1)) _)) as [[r|]|e|];
    cbn [fst snd]; try (apply Hdone; reflexivity).
  2:{ destruct (base_only e); cbn [fst snd]; [apply Hdone; reflexivity|].
      unfold Agent.show. destruct (Agent.present E _) as [[]|e'|]; cbn [fst snd];
        apply Hdone; reflexivity. }
  pose proof (show_text_talk E (Llm.extract_text (content r)) st1) as [_ [Hs2 _]].
  destruct (Agent.show_text E _ st1) as [o2 st2]. cbn [snd] in Hs2.
  destruct o2 as [[]|e|]; cbn [fst snd]; try (apply Hdone; exact Hs2).
  destruct (Agent.is_empty _ && _); cbn [fst snd]; [apply Hdone; exact Hs2|].
  set (st3 := Agent.append_message _ st2).
  assert (Hs3 : Agent.sent st3 = Agent.sent st1) by exact Hs2.
  clearbody st3.
  destruct (process_tools_results E (Llm.extract_tool_use (content r)) JNull [] st3)
    as [[_ [Hs4 _]] _].
  destruct (Agent.process_tools E _ JNull [] st3) as [[[fs rs]|e|] st4]; cbn [fst snd] in *;
    try (apply Hdone; congruence).
  destruct (negb (Agent.is_none fs)); cbn [fst snd]; [apply Hdone; simpl; congruence|].
  destruct (loop_sent_extends E n (it + 1 + 1)%Z
              (Agent.append_message (Message "user" (CResults rs)) st4)) as [news Hnews].
  exists news. rewrite Hnews. simpl. rewrite Hs4, Hs3, Hs1, <- app_assoc. reflexivity.
Qed.

(** ** The orchestrator: the iteration budget *)




(** A turn's text that is empty or displayed leaves the loop going. *)
Lemma show_text_returns (E : Agent.env) (text : string) (st : Agent.state) :
  text = "" \/ Agent.present E (Agent.ShowThinking text) = Ret tt ->
  Agent.show_text E text st
  = (Ret tt, if negb (String.eqb text "") then Agent.emit (Agent.ShowThinking text) st else st).
Proof.
  intros [H|H]; unfold Agent.show_text, Agent.show.
  - subst text. reflexivity.
  - rewrite H. destruct (negb _); reflexivity.
Qed.






(** ** The orchestrator: a turn that presents results *)

Lemma process_tools_cons (E : Agent.env) (id name : string) (input : list (string * jval))
    (rest : list (string * string * list (string * jval)))
    (fs : jval) (rs : list tool_result) (st : Agent.state) :
  Agent.process_tools E ((id, name, input) :: rest) fs rs st
  = match Agent._handle_tool_call E name input st with
    | (Ret result, st1) =>
      if String.eqb name "present_results" then
        Agent.process_tools E rest (dict_get input "summary" (JStr ""))
          (rs ++ [Llm.format_tool_result id "Results presented to user." false]) st1
      else if String.eqb name "ask_clarifying_question" then
        Agent.process_tools E rest fs (rs ++ [Llm.format_tool_result id result false]) st1
      else
        Agent.process_tools E rest fs
          (rs ++ [Llm.format_tool_result id result (startswith result "Error:")]) st1
    | (Raise e, st1) => (Raise e, st1)
    | (Hang, st1) => (Hang, st1)
    end.
Proof. reflexivity. Qed.




(** ** The orchestrator: a run returns *)





(** ** Scenarios *)







Lemma run_answers_every_invocation_witness :
  answered [] asked
    (Agent.messages (snd (Agent.run (presents "Final answer") "Quick analysis" (fresh 5)))).
Proof.
  apply (proj1 (proj2 (run_answers_every_invocation (presents "Final answer") "Quick analysis"
                         (fresh 5)))
           (JStr "Final answer")).
  vm_compute. reflexivity.
Defined.

(** C2 as stated fails: when a handler raises, the model turn stays in
    the conversation without the user turn that answers it, and the next
    run on the same agent sends it so. *)
Lemma run_leaves_turn_unanswered :
  fst (Agent.run bad_viz "Quick analysis" (fresh 10))
  = Raise (Exn "TypeError" "unsupported operand type(s) for +" "")
  /\ Agent.messages (snd (Agent.run bad_viz "Quick analysis" (fresh 10)))
     = [asked; Message "assistant" (CBlocks (content bad_viz_turn))]
  /\ ~ answered [] asked [asked; Message "assistant" (CBlocks (content bad_viz_turn))]
  /\ Agent.sent (snd (Agent.run bad_viz "Quick analysis"
                        (snd (Agent.run bad_viz "Quick analysis" (fresh 10)))))
     = [[asked]; [asked; Message "assistant" (CBlocks (content bad_viz_turn)); asked]].
Proof.
  split; [vm_compute; reflexivity|]. split; [vm_compute; reflexivity|].
  split; [|vm_compute; reflexivity].
  intros [tail [Hc Hp]]. simpl in Hc. inversion Hc; subst tail.
  inversion Hp.
Qed.





Lemma loop_continues_on_empty_turn_witness :
  exists st',
    Agent.loop cut_short 2 0 (Agent.append_message asked (fresh 5))
    = Agent.loop cut_short 1 1 st'
    /\ Agent.messages st'
       = [asked; Message "assistant" (CBlocks [TextBlock "Let me"]); Message "user" (CResults [])].
Proof.
  destruct (loop_continues_on_empty_turn cut_short 1 0 (Agent.append_message asked (fresh 5))
              cut_turn) as [st' [Hloop [Hm _]]].
  - reflexivity.
  - reflexivity.
  - discriminate.
  - right. reflexivity.
  - exists st'. split; [exact Hloop | exact Hm].
Defined.

(** C10 as stated fails: when the presenter rejects the text of such a
    turn - rich does for a text with a closing tag that matches no open
    one - the loop stops with the presenter's exception, after one
    request and with nothing appended to the conversation. *)
Lemma cut_turn_text_rejected :
  fst (Llm.send_message (Agent.create tagged [asked]) Llm.default_max_retries)
  = Ret (Some tagged_turn)
  /\ Llm.extract_tool_use (content tagged_turn) = []
  /\ stop_reason tagged_turn <> "end_turn"
  /\ fst (Agent.loop tagged 5 0 (Agent.append_message asked (fresh 5))) = Raise markup_error
  /\ Agent.messages (snd (Agent.loop tagged 5 0 (Agent.append_message asked (fresh 5))))
     = [asked]
  /\ Agent.sent (snd (Agent.loop tagged 5 0 (Agent.append_message asked (fresh 5))))
     = [[asked]].
Proof.
  split; [reflexivity|]. split; [reflexivity|]. split; [discriminate|].
  repeat split; vm_compute; reflexivity.
Qed.


(** ** More on the adapter *)

(** X1: with a retry bound of zero or less [send_message] calls the
    API not once, sleeps not once, and returns [None]: it neither
    answers nor raises. *)
Theorem send_message_without_attempts (create : Llm.transport) (max_retries : Z) :
  (max_retries <= 0)%Z ->
  Llm.send_message create max_retries = (Ret None, Llm.Log 0 []).
Proof.
  intros H. unfold Llm.send_message.
  replace (Z.to_nat max_retries) with 0 by lia. reflexivity.
Qed.

Lemma send_message_without_attempts_witness :
  Llm.send_message flaky 0 = (Ret None, Llm.Log 0 []).
Proof.
  apply (send_message_without_attempts flaky 0). lia.
Defined.

Lemma send_loop_other_error (create : Llm.transport) (R : Z) (e : exn) (d : nat) :
  forall (a n : nat),
    (Z.of_nat (a + d) < R)%Z ->
    d < n ->
    (forall i, a <= i < a + d -> Llm.transient (create i)) ->
    create (a + d) = Llm.OtherError e ->
    Llm.send_loop create R n a (Llm.Log a (Llm.backoff a))
    = (Raise e, Llm.Log (S (a + d)) (Llm.backoff (a + d))).
Proof.
  induction d as [|d IH]; intros a n HR Hn Htr Hok.
  - destruct n as [|n]; [lia|]. simpl. rewrite Nat.add_0_r in *. rewrite Hok. reflexivity.
  - destruct n as [|n]; [lia|]. simpl.
    assert (Ha : Llm.transient (create a)) by (apply Htr; lia).
    assert (Hlt : (Z.of_nat a <? R - 1)%Z = true) by (apply Z.ltb_lt; lia).
    replace (a + S d) with (S a + d) in * by lia.
    destruct (create a) eqn:Hc; simpl in Ha; try contradiction;
      rewrite Hlt, <- backoff_snoc; apply IH; auto; try lia;
      intros i Hi; apply Htr; lia.
Qed.

(** X2: an exception that is no API error is never retried: after K
    failures the adapter catches, such an exception at attempt K leaves
    [send_message] at once, after K+1 attempts and K waits, however many
    retries remain. *)
Theorem send_message_other_error (create : Llm.transport) (max_retries : Z)
    (K : nat) (e : exn) :
  (Z.of_nat K < max_retries)%Z ->
  (forall i, i < K -> Llm.transient (create i)) ->
  create K = Llm.OtherError e ->
  Llm.send_message create max_retries = (Raise e, Llm.Log (K + 1) (Llm.backoff K)).
Proof.
  intros HK Htr Hk. unfold Llm.send_message. rewrite Nat.add_1_r.
  apply (send_loop_other_error create max_retries e K 0 (Z.to_nat max_retries));
    simpl; auto; try lia.
  intros i Hi. apply Htr. lia.
Qed.

Lemma send_message_other_error_witness :
  Llm.send_message broken_after_one 5
  = (Raise (Exn "ValueError" "bad request body" ""), Llm.Log 2 [1%Z]).
Proof.
  apply (send_message_other_error broken_after_one 5 1).
  - lia.
  - intros i Hi. assert (i = 0) by lia. subst i. exact I.
  - reflexivity.
Defined.

(** From attempt [a] on, with as many iterations left as the bound
    allows, the loop stops at some attempt [a + k]: it has then made
    [a + k + 1] calls and slept before each but the first. *)
Lemma send_loop_log (create : Llm.transport) (R : Z) (n : nat) :
  forall (a : nat),
    Z.of_nat (a + S n) = R ->
    exists k,
      k <= n
      /\ snd (Llm.send_loop create R (S n) a (Llm.Log a (Llm.backoff a)))
         = Llm.Log (S (a + k)) (Llm.backoff (a + k))
      /\ fst (Llm.send_loop create R (S n) a (Llm.Log a (Llm.backoff a))) <> Ret None.
Proof.
  induction n as [|n IH]; intros a HR.
  - exists 0. rewrite Nat.add_0_r.
    assert (Hlt : (Z.of_nat a <? R - 1)%Z = false) by (apply Z.ltb_ge; lia).
    simpl. destruct (create a); try rewrite Hlt; simpl; repeat split; auto; discriminate.
  - assert (Hlt : (Z.of_nat a <? R - 1)%Z = true) by (apply Z.ltb_lt; lia).
    destruct (IH (S a)) as [k [Hk [Hlog Hout]]]; [lia|].
    assert (Hretry : exists k0,
               k0 <= S n
               /\ snd (Llm.send_loop create R (S n) (S a)
                         (Llm.Log (S a) (Llm.backoff a ++ [(2 ^ Z.of_nat a)%Z])))
                  = Llm.Log (S (a + k0)) (Llm.backoff (a + k0))
               /\ fst (Llm.send_loop create R (S n) (S a)
                         (Llm.Log (S a) (Llm.backoff a ++ [(2 ^ Z.of_nat a)%Z])))
                  <> Ret None).
    { exists (S k). rewrite <- backoff_snoc.
      replace (a + S k) with (S a + k) by lia. repeat split; auto. lia. }
    change (Llm.send_loop create R (S (S n)) a (Llm.Log a (Llm.backoff a)))
      with (let lg1 := Llm.Log (S a) (Llm.backoff a) in
            let retry e :=
              if (Z.of_nat a <? R - 1)%Z then
                Llm.send_loop create R (S n) (S a)
                  (Llm.Log (S a) (Llm.backoff a ++ [(2 ^ Z.of_nat a)%Z]))
              else (Raise e, lg1) in
            match create a with
            | Llm.Success r => (Ret (Some r), lg1)
            | Llm.RateLimitError e => retry e
            | Llm.APIError e => retry e
            | Llm.OtherError e => (Raise e, lg1)
            end).
    cbv zeta. rewrite Hlt.
    destruct (create a); try exact Hretry;
      exists 0; rewrite Nat.add_0_r; simpl; repeat split; auto; try lia; discriminate.
Qed.

Lemma send_loop_never_hangs (create : Llm.transport) (R : Z) (n : nat) :
  forall (a : nat) (lg : Llm.log), fst (Llm.send_loop create R n a lg) <> Hang.
Proof.
  induction n as [|n IH]; intros a lg; simpl; [discriminate|].
  destruct (create a); simpl; try discriminate;
    destruct (Z.of_nat a <? R - 1)%Z; simpl; try discriminate; apply IH.
Qed.

(** X3: whatever the transport does, [send_message] with a positive
    bound makes at least one and at most [max_retries] attempts, has
    slept 1, 2, 4, ... once before every attempt but the first, and ends
    with a response or an exception, never with [None]. *)
Theorem send_message_log (create : Llm.transport) (max_retries : Z) :
  (0 < max_retries)%Z ->
  let res := Llm.send_message create max_retries in
  (1 <= Llm.attempts (snd res) <= Z.to_nat max_retries)
  /\ Llm.sleeps (snd res) = Llm.backoff (Llm.attempts (snd res) - 1)
  /\ fst res <> Ret None
  /\ fst res <> Hang.
Proof.
  intros Hpos res. unfold res, Llm.send_message.
  destruct (Z.to_nat max_retries) as [|n] eqn:Hn; [lia|].
  destruct (send_loop_log create max_retries n 0) as [k [Hk [Hlog Hout]]]; [simpl; lia|].
  change (Llm.Log 0 []) with (Llm.Log 0 (Llm.backoff 0)).
  rewrite Hlog.
  split; [simpl; lia|]. split; [simpl; rewrite Nat.sub_0_r; reflexivity|].
  split; [exact Hout | apply send_loop_never_hangs].
Qed.

Lemma send_message_log_witness :
  Llm.attempts (snd (Llm.send_message down 4)) <= 4
  /\ Llm.sleeps (snd (Llm.send_message down 4))
     = Llm.backoff (Llm.attempts (snd (Llm.send_message down 4)) - 1).
Proof.
  destruct (send_message_log down 4) as [[_ H1] [H2 _]]; [lia|].
  split; [exact H1 | exact H2].
Defined.





(** ** More on the sandbox *)

Lemma autosave_counter (output_dir : string) (n : nat) :
  forall (counter : nat) (d : option (list string)),
    counter <= snd (fst (Executor.autosave output_dir n counter d)).
Proof.
  induction n as [|n IH]; intros counter d; simpl; auto.
  destruct d as [names|]; simpl; auto.
  match goal with
  | |- _ <= snd (fst (Executor.autosave _ _ _ ?d')) => specialize (IH (S counter) d')
  end. lia.
Qed.

(** X5: in every result [execute] returns, the error is absent exactly
    when the execution succeeded, and a failed execution lists no
    artifact, whatever the snippet wrote. *)
Theorem execute_result_invariant (self self' : Executor.executor) (code : Executor.snippet)
    (timeout : nat) (w w' : Executor.world) (r : Executor.ExecutionResult) :
  Executor.execute self code timeout w = Ret (r, self', w') ->
  (Executor.success r = true <-> Executor.error r = None)
  /\ (Executor.success r = false -> Executor.figures r = []).
Proof.
  intros H. unfold Executor.execute, Executor.copy in H.
  match type of H with
  | context [Executor.run_code ?a ?c ?s] => destruct (Executor.run_code a c s) as [e s1]
  end.
  destruct e; try discriminate;
    repeat match type of H with
           | context [if ?x then _ else _] => destruct x
           | context [let '(_, _) := ?x in _] => destruct x as [[? ?] ?]
           | context [match ?x with Some _ => _ | None => _ end] => destruct x
           end;
    try discriminate; inversion H; subst; simpl;
    (split; [split; intros; (reflexivity || discriminate) | intros; (reflexivity || discriminate)]).
Qed.

Lemma execute_result_invariant_witness :
  exists r self' w',
    Executor.execute ex0 [Executor.WriteFile "late.png"; Executor.Throw (Exn "ValueError" "x" "")]
      30 w0 = Ret (r, self', w')
    /\ Executor.dir w' = Some ["old.png"; "late.png"]
    /\ Executor.figures r = [].
Proof.
  eexists; eexists; eexists. split; [reflexivity|]. split; [reflexivity|].
  refine (proj2 (execute_result_invariant ex0 _
                   [Executor.WriteFile "late.png"; Executor.Throw (Exn "ValueError" "x" "")]
                   30 w0 _ _ eq_refl) eq_refl).
Defined.

(** X6: whenever [execute] returns, every figure is closed, the
    executor still names the same file, directory and table, and its
    figure counter has not gone down. *)
Theorem execute_state_invariant (self self' : Executor.executor) (code : Executor.snippet)
    (timeout : nat) (w w' : Executor.world) (r : Executor.ExecutionResult) :
  Executor.execute self code timeout w = Ret (r, self', w') ->
  Executor.fignums w' = 0
  /\ Executor.csv_path self' = Executor.csv_path self
  /\ Executor.output_dir self' = Executor.output_dir self
  /\ Executor.df self' = Executor.df self
  /\ Executor._figure_counter self <= Executor._figure_counter self'.
Proof.
  intros H. unfold Executor.execute, Executor.copy in H.
  match type of H with
  | context [Executor.run_code ?a ?c ?s] => destruct (Executor.run_code a c s) as [e s1]
  end.
  destruct e; try discriminate;
    repeat match type of H with
           | context [if ?x then _ else _] => destruct x
           end;
    try discriminate; try (inversion H; subst; simpl; auto; fail);
    pose proof (autosave_counter (Executor.output_dir self)
                  (Executor.fignums (Executor.w_world s1))
                  (Executor._figure_counter self) (Executor.dir (Executor.w_world s1))) as Hc;
    destruct (Executor.autosave _ _ _ _) as [[x counter] d]; simpl in Hc;
    destruct x; inversion H; subst; simpl; auto.
Qed.

Lemma execute_state_invariant_witness :
  exists r self' w',
    Executor.execute ex0 [Executor.OpenFig; Executor.OpenFig] 30 w0 = Ret (r, self', w')
    /\ Executor.fignums w' = 0
    /\ Executor._figure_counter self' = 2.
Proof.
  eexists; eexists; eexists. split; [reflexivity|].
  split; [|reflexivity].
  apply (execute_state_invariant ex0 _ [Executor.OpenFig; Executor.OpenFig] 30 w0 _ _ eq_refl).
Defined.

Lemma append_assoc (a b c : string) : ((a ++ b) ++ c = a ++ (b ++ c))%string.
Proof.
  induction a as [|x a IH]; simpl; [reflexivity | rewrite IH; reflexivity].
Qed.

Lemma append_nil_r (a : string) : (a ++ "" = a)%string.
Proof.
  induction a as [|x a IH]; simpl; [reflexivity | rewrite IH; reflexivity].
Qed.

(** Prints run one after the other and only lengthen standard output. *)
Lemma run_code_prints (a : Executor.addr) (lines : list string) (rest : Executor.snippet) :
  forall s,
    Executor.run_code a (map Executor.Print lines ++ rest)%list s
    = Executor.run_code a rest
        (Executor.mkW (Executor.w_world s) (Executor.stdout_buffer s ++ printed lines)
           (Executor.stderr_buffer s) (Executor.elapsed s)).
Proof.
  induction lines as [|l lines IH]; intros s; simpl.
  - rewrite append_nil_r. destruct s; reflexivity.
  - rewrite IH. simpl. rewrite append_assoc. reflexivity.
Qed.

Lemma set_diff_self (l : list string) : Executor.set_diff l l = [].
Proof.
  unfold Executor.set_diff.
  assert (H : forall m, (forall x, In x m -> In x l) ->
                filter (fun p => negb (Executor.mem p l)) m = []).
  { induction m as [|x m IH]; intros Hm; simpl; auto.
    rewrite (proj2 (mem_In x l) (Hm x (or_introl eq_refl))). simpl.
    apply IH. intros y Hy. apply Hm. right. exact Hy. }
  apply H. auto.
Qed.


Lemma elapsed_step (a : Executor.addr) (act : Executor.action) (s : Executor.wstate) :
  Executor.elapsed s <= Executor.elapsed (snd (Executor.step a act s)).
Proof.
  destruct act; simpl; try lia;
    repeat match goal with
           | |- context [match ?x with _ => _ end] => destruct x; simpl; try lia
           end.
Qed.

Lemma elapsed_run_code (a : Executor.addr) (code : Executor.snippet) :
  forall s, Executor.elapsed s <= Executor.elapsed (snd (Executor.run_code a code s)).
Proof.
  induction code as [|act rest IH]; intros s; simpl; auto.
  pose proof (elapsed_step a act s) as Hs.
  destruct (Executor.step a act s) as [e s1]. simpl in Hs.
  destruct e; simpl; auto. specialize (IH s1). lia.
Qed.

Lemma run_code_halts (a : Executor.addr) (code : Executor.snippet) :
  forall s, halts code = true -> fst (Executor.run_code a code s) <> Executor.Diverged.
Proof.
  induction code as [|act rest IH]; intros s Hh; simpl; [discriminate|].
  simpl in Hh. apply andb_true_iff in Hh. destruct Hh as [Hact Hrest].
  destruct (Executor.step a act s) as [e s1] eqn:Hstep.
  destruct e; simpl; try discriminate; [apply IH; assumption|].
  destruct act; try discriminate; simpl in Hstep;
    repeat match type of Hstep with
           | context [match ?x with _ => _ end] => destruct x
           end; discriminate.
Qed.

(** X8: once a snippet has outlived the timeout, whatever it does
    afterwards short of looping for ever - print, write files, raise,
    call [sys.exit()] - the result is the timeout failure: the error
    names the timeout and not the exception, no artifact is listed, and
    the figure counter is untouched. *)
Theorem execute_timeout_masks_the_rest (self : Executor.executor) (n : nat)
    (rest : Executor.snippet) (timeout : nat) (w : Executor.world) :
  timeout < n ->
  halts rest = true ->
  exists out w',
    Executor.execute self (Executor.Wait n :: rest) timeout w
    = Ret (Executor.mkResult false out (Some (Executor.timeout_msg timeout)) [], self, w').
Proof.
  intros Hn Hh. unfold Executor.execute, Executor.copy.
  change (Executor.run_code ?a (Executor.Wait n :: rest) ?s)
    with (Executor.run_code a rest (snd (Executor.step a (Executor.Wait n) s))).
  simpl Executor.step. simpl snd.
  match goal with
  | |- context [Executor.run_code ?a rest ?s] =>
    pose proof (elapsed_run_code a rest s) as Hel;
      pose proof (run_code_halts a rest s Hh) as Hnd;
      destruct (Executor.run_code a rest s) as [e s1]
  end.
  simpl in Hel, Hnd.
  assert (Hlt : Nat.ltb timeout (Executor.elapsed s1) = true) by (apply Nat.ltb_lt; lia).
  destruct e; try contradiction; rewrite Hlt; eauto.
Qed.

Lemma execute_timeout_masks_the_rest_witness :
  exists out w',
    Executor.execute ex0
      [Executor.Wait 31; Executor.WriteFile "late.png"; Executor.Exit (Exn "SystemExit" "" "")]
      30 w0
    = Ret (Executor.mkResult false out (Some (Executor.timeout_msg 30)) [], ex0, w').
Proof.
  apply (execute_timeout_masks_the_rest ex0 31
           [Executor.WriteFile "late.png"; Executor.Exit (Exn "SystemExit" "" "")] 30 w0).
  - lia.
  - reflexivity.
Defined.

Lemma length_append (p s : string) :
  String.length (p ++ s) = String.length p + String.length s.
Proof.
  induction p as [|c p IH]; simpl; auto.
Qed.

Lemma substring_all (s : string) : String.substring 0 (String.length s) s = s.
Proof.
  induction s as [|c s IH]; simpl; [reflexivity | rewrite IH; reflexivity].
Qed.

Lemma substring_suffix (p s : string) :
  String.substring (String.length p) (String.length s) (p ++ s) = s.
Proof.
  induction p as [|c p IH]; simpl; [apply substring_all | exact IH].
Qed.

Lemma endswith_append (p s : string) : endswith (p ++ s) s = true.
Proof.
  unfold endswith. rewrite length_append.
  replace (Nat.leb (String.length s) (String.length p + String.length s)) with true
    by (symmetry; apply Nat.leb_le; lia).
  replace (String.length p + String.length s - String.length s) with (String.length p) by lia.
  rewrite substring_suffix. apply String.eqb_refl.
Qed.

Lemma next_figure_is_png (self : Executor.executor) :
  Executor.is_png (next_figure self) = true.
Proof.
  unfold Executor.is_png, next_figure. rewrite <- append_assoc. apply endswith_append.
Qed.

(** The listing after one new [*.png] entry, minus the listing before. *)
Lemma figures_diff_new (d : string) (names : list string) (name : string) :
  Executor.is_png name = true ->
  ~ In name names ->
  Executor.sorted
    (Executor.set_diff
       (Executor.dedup (map (Executor.path_of d) (filter Executor.is_png (names ++ [name]))))
       (Executor.dedup (map (Executor.path_of d) (filter Executor.is_png names))))
  = [Executor.path_of d name].
Proof.
  intros Hpng Hnew. apply singleton_list.
  - apply (Permutation_NoDup (Permutation_sym (sorted_perm _))).
    apply NoDup_filter. apply dedup_NoDup.
  - intros q. split.
    + intros Hq. apply (Permutation_in _ (sorted_perm _)) in Hq.
      apply set_diff_In in Hq. destruct Hq as [Hafter Hbefore].
      rewrite dedup_In, in_map_iff in Hafter. destruct Hafter as [n [Hn Hin]].
      apply filter_In in Hin. destruct Hin as [Hin Hp].
      apply in_app_or in Hin. destruct Hin as [Hin|[Hin|[]]].
      * exfalso. apply Hbefore. rewrite dedup_In, in_map_iff. exists n.
        split; [exact Hn|]. apply filter_In. auto.
      * subst n. symmetry. exact Hn.
    + intros Hq. subst q. apply (Permutation_in _ (Permutation_sym (sorted_perm _))).
      apply set_diff_In. split.
      * rewrite dedup_In, in_map_iff. exists name. split; [reflexivity|].
        apply filter_In. split; [apply in_or_app; right; left; reflexivity | exact Hpng].
      * rewrite dedup_In, in_map_iff. intros [n [Hn Hin]].
        apply path_of_inj in Hn. subst n. apply filter_In in Hin. tauto.
Qed.

(** X9: a snippet that prints and leaves one figure open succeeds, and
    [execute] saves the figure as figure_N.png, N the next value of its
    counter.  When the directory has no such entry the result lists
    exactly that path; when it has one already (the counter starts again
    at zero for every executor), the file is written over and the result
    lists no artifact. *)
Theorem execute_autosaves_open_figure (self : Executor.executor) (lines : list string)
    (timeout : nat) (w : Executor.world) (names : list string) :
  Executor.dir w = Some names ->
  (~ In (next_figure self) names ->
   Executor.execute self (map Executor.Print lines ++ [Executor.OpenFig])%list timeout w
   = Ret (Executor.mkResult true (printed lines) None
            [Executor.path_of (Executor.output_dir self) (next_figure self)],
          counted self 1,
          after_copy self w (Some (names ++ [next_figure self])%list)))
  /\ (In (next_figure self) names ->
      Executor.execute self (map Executor.Print lines ++ [Executor.OpenFig])%list timeout w
      = Ret (Executor.mkResult true (printed lines) None [], counted self 1,
             after_copy self w (Some names))).
Proof.
  intros Hdir.
  assert (Hrun : forall entries,
             Executor.add_entry (next_figure self) names = entries ->
             Executor.execute self (map Executor.Print lines ++ [Executor.OpenFig])%list timeout w
             = Ret (Executor.mkResult true (printed lines) None
                      (Executor.sorted
                         (Executor.set_diff
                            (Executor.dedup (map (Executor.path_of (Executor.output_dir self))
                                               (filter Executor.is_png entries)))
                            (Executor.dedup (map (Executor.path_of (Executor.output_dir self))
                                               (filter Executor.is_png names))))),
                    counted self 1, after_copy self w (Some entries))).
  { intros entries Hentries. unfold Executor.execute, Executor.copy.
    rewrite run_code_prints. sandbox_steps. rewrite Hdir. cbn [Executor.autosave].
    fold (next_figure self). rewrite Hentries.
    unfold Executor._get_existing_figures. cbn [Executor.dir Executor.output_dir].
    rewrite Hdir. destruct timeout; reflexivity. }
  split; intros Hin.
  - rewrite (Hrun (names ++ [next_figure self])%list).
    + rewrite figures_diff_new; auto using next_figure_is_png.
    + unfold Executor.add_entry. rewrite (proj2 (mem_false _ _) Hin). reflexivity.
  - rewrite (Hrun names).
    + rewrite set_diff_self. reflexivity.
    + unfold Executor.add_entry. rewrite (proj2 (mem_In _ _) Hin). reflexivity.
Qed.

Lemma execute_autosaves_open_figure_witness :
  Executor.execute ex0 [Executor.Print "plotting"; Executor.OpenFig] 30 w0
  = Ret (Executor.mkResult true "plotting" None ["output/figure_1.png"],
         counted ex0 1, after_copy ex0 w0 (Some ["old.png"; "figure_1.png"]))
  /\ Executor.execute ex0 [Executor.Print "plotting"; Executor.OpenFig] 30
       (Executor.mkWorld [people] (Some ["figure_1.png"]) 0)
     = Ret (Executor.mkResult true "plotting" None [],
            counted ex0 1,
            after_copy ex0 (Executor.mkWorld [people] (Some ["figure_1.png"]) 0)
              (Some ["figure_1.png"])).
Proof.
  split.
  - apply (proj1 (execute_autosaves_open_figure ex0 ["plotting"] 30 w0 ["old.png"] eq_refl)).
    simpl. intros [H|[]]. discriminate.
  - apply (proj2 (execute_autosaves_open_figure ex0 ["plotting"] 30
                    (Executor.mkWorld [people] (Some ["figure_1.png"]) 0)
                    ["figure_1.png"] eq_refl)).
    left. reflexivity.
Defined.

(** X10: when the output directory does not exist, its listing is
    empty, a snippet that writes a file in it fails with a
    FileNotFoundError after its prints, and a snippet that leaves a
    figure open fails too, on the save [execute] attempts, which still
    uses up a figure number. *)
Theorem execute_without_directory (self : Executor.executor) (lines : list string)
    (name : string) (post : Executor.snippet) (timeout : nat) (w : Executor.world) :
  Executor.dir w = None ->
  Executor._get_existing_figures self w = []
  /\ Executor.execute self (map Executor.Print lines ++ Executor.WriteFile name :: post)%list
       timeout w
     = Ret (Executor.mkResult false (printed lines)
              (Some (Executor.error_msg (Executor.file_not_found name))) [],
            self, after_copy self w None)
  /\ Executor.execute self (map Executor.Print lines ++ [Executor.OpenFig])%list timeout w
     = Ret (Executor.mkResult false (printed lines)
              (Some (Executor.error_msg
                       (Executor.file_not_found
                          (Executor.path_of (Executor.output_dir self) (next_figure self))))) [],
            counted self 1, after_copy self w None).
Proof.
  intros Hdir. split; [unfold Executor._get_existing_figures; rewrite Hdir; reflexivity|].
  split; unfold Executor.execute, Executor.copy; rewrite run_code_prints; sandbox_steps;
    rewrite Hdir; sandbox_steps; cbn [Executor.autosave]; destruct timeout; reflexivity.
Qed.

Lemma execute_without_directory_witness :
  Executor.execute ex0 [Executor.Print "saving"; Executor.OpenFig] 30
    (Executor.mkWorld [people] None 0)
  = Ret (Executor.mkResult false "saving"
           (Some (Executor.error_msg (Executor.file_not_found "output/figure_1.png"))) [],
         counted ex0 1, after_copy ex0 (Executor.mkWorld [people] None 0) None).
Proof.
  apply (proj2 (proj2 (execute_without_directory ex0 ["saving"] "x.png" [] 30
                         (Executor.mkWorld [people] None 0) eq_refl))).
Defined.

(** ** More on the tool router *)

(** X11: an invocation of a tool that is none of the three known ones
    is answered all the same: its result carries the invocation's
    identifier, the text "Error: Unknown tool '<name>'" and the error
    flag; nothing else changes and the loop goes on with the rest of the
    turn. *)
Theorem unknown_tool_is_answered_with_error (E : Agent.env) (id name : string)
    (input : list (string * jval)) (rest : list (string * string * list (string * jval)))
    (fs : jval) (rs : list tool_result) (st : Agent.state) :
  name <> "execute_code" ->
  name <> "ask_clarifying_question" ->
  name <> "present_results" ->
  Agent.process_tools E ((id, name, input) :: rest) fs rs st
  = Agent.process_tools E rest fs
      (rs ++ [ToolResult id ("Error: Unknown tool '" ++ name ++ "'") true]) st.
Proof.
  intros H1 H2 H3. rewrite process_tools_cons. unfold Agent._handle_tool_call.
  apply String.eqb_neq in H1, H2, H3. rewrite H1, H2, H3. reflexivity.
Qed.

Lemma unknown_tool_is_answered_with_error_witness :
  Agent.process_tools keeps_going [("7", "make_chart", [])] JNull [] (fresh 5)
  = (Ret (JNull, [ToolResult "7" "Error: Unknown tool 'make_chart'" true]), fresh 5).
Proof.
  rewrite (unknown_tool_is_answered_with_error keeps_going "7" "make_chart" [] [] JNull []
             (fresh 5)); [reflexivity | discriminate | discriminate | discriminate].
Defined.

Lemma execution_text_flag (r : Executor.ExecutionResult) :
  startswith (execution_text r) "Error:" = negb (Executor.success r).
Proof.
  unfold execution_text.
  destruct (Executor.success r); [|reflexivity].
  destruct (negb (String.eqb (Executor.output r) "")); reflexivity.
Qed.

Lemma handle_execute_code_result (E : Agent.env) (input : list (string * jval))
    (st : Agent.state) (r : Executor.ExecutionResult) (ex : Executor.executor)
    (w : Executor.world) :
  Executor.execute (Agent.executor st)
    (Agent.snippet_of E (dict_get input "code" (JStr ""))) Executor.default_timeout
    (Agent.world st) = Ret (r, ex, w) ->
  Agent.present E
    (Agent.ShowCodeExecution (dict_get input "code" (JStr ""))
       (dict_get input "purpose" (JStr "Execute code")) r) = Ret tt ->
  Agent._handle_execute_code E input st
  = (Ret (execution_text r),
     after_execution st (dict_get input "code" (JStr ""))
       (dict_get input "purpose" (JStr "Execute code")) r ex w).
Proof.
  intros H Hshown. unfold Agent._handle_execute_code, Agent.show. rewrite H, Hshown.
  unfold execution_text, after_execution.
  destruct (Executor.success r), (Executor.figures r) as [|f figs]; simpl;
    try rewrite app_nil_r; try rewrite append_nil_r; reflexivity.
Qed.

(** X12: when the presenter displays an execution, the result of the
    execute_code invocation is flagged as an error exactly when the
    execution failed; its text is the output (or the fixed "no output"
    line) followed by the new artifacts on success and "Error:" with the
    error detail on failure; after it the agent holds the executor and
    world [execute] left and tracks the new artifacts.  A missing code
    argument runs the empty text and a missing purpose is shown as
    "Execute code".  When the presenter raises on the execution, the
    tool loop is left with that exception: the invocation gets no
    result and the new artifacts are not tracked. *)
Theorem execute_code_result_flag (E : Agent.env) (id : string)
    (input : list (string * jval)) (rest : list (string * string * list (string * jval)))
    (fs : jval) (rs : list tool_result) (st : Agent.state)
    (r : Executor.ExecutionResult) (ex : Executor.executor) (w : Executor.world) :
  let code := dict_get input "code" (JStr "") in
  let purpose := dict_get input "purpose" (JStr "Execute code") in
  Executor.execute (Agent.executor st) (Agent.snippet_of E code) Executor.default_timeout
    (Agent.world st) = Ret (r, ex, w) ->
  (Agent.present E (Agent.ShowCodeExecution code purpose r) = Ret tt ->
   Agent.process_tools E ((id, "execute_code", input) :: rest) fs rs st
   = Agent.process_tools E rest fs
       (rs ++ [ToolResult id (execution_text r) (negb (Executor.success r))])
       (after_execution st code purpose r ex w))
  /\ (forall e,
        Agent.present E (Agent.ShowCodeExecution code purpose r) = Raise e ->
        Agent.process_tools E ((id, "execute_code", input) :: rest) fs rs st
        = (Raise e,
           Agent.emit (Agent.ShowCodeExecution code purpose r)
             (Agent.after_execute ex w (Agent.figures st) st))).
Proof.
  intros code purpose H. split.
  - intros Hshown. rewrite process_tools_cons.
    change (Agent._handle_tool_call E "execute_code" input st)
      with (Agent._handle_execute_code E input st).
    rewrite (handle_execute_code_result E input st r ex w H Hshown).
    change (String.eqb "execute_code" "present_results") with false.
    change (String.eqb "execute_code" "ask_clarifying_question") with false.
    cbv iota. rewrite execution_text_flag. reflexivity.
  - intros e Hraised. rewrite process_tools_cons.
    change (Agent._handle_tool_call E "execute_code" input st)
      with (Agent._handle_execute_code E input st).
    unfold Agent._handle_execute_code, Agent.show. fold code. fold purpose.
    rewrite H, Hraised. reflexivity.
Qed.

Lemma execute_code_result_flag_witness :
  Agent.process_tools faulty_code
    [("1", "execute_code", [("code", JStr "1/0")])] JNull [] (fresh 5)
  = (Ret (JNull,
          [ToolResult "1"
             ("Error:" ++ Llm.newline ++ "ZeroDivisionError: division by zero" ++ Llm.newline)
             true]),
     after_execution (fresh 5) (JStr "1/0") (JStr "Execute code")
       (Executor.mkResult false ""
          (Some ("ZeroDivisionError: division by zero" ++ Llm.newline)) [])
       ex0 (after_copy ex0 w0 (Some ["old.png"]))).
Proof.
  rewrite (proj1 (execute_code_result_flag faulty_code "1" [("code", JStr "1/0")] [] JNull []
                    (fresh 5)
                    (Executor.mkResult false ""
                       (Some ("ZeroDivisionError: division by zero" ++ Llm.newline)) [])
                    ex0 (after_copy ex0 w0 (Some ["old.png"])) eq_refl) eq_refl);
    reflexivity.
Defined.

(** X13: the result of an ask_clarifying_question invocation is the
    user's answer behind "User response: ", never flagged as an error
    whatever the answer says; the question shown is the question
    argument, the empty text when it is missing. *)
Theorem question_result_is_the_answer (E : Agent.env) (id : string)
    (input : list (string * jval)) (rest : list (string * string * list (string * jval)))
    (fs : jval) (rs : list tool_result) (st : Agent.state) (user_response : string) :
  let question := dict_get input "question" (JStr "") in
  Agent.answer E question = Ret user_response ->
  Agent.process_tools E ((id, "ask_clarifying_question", input) :: rest) fs rs st
  = Agent.process_tools E rest fs
      (rs ++ [ToolResult id ("User response: " ++ user_response) false])
      (Agent.emit (Agent.ShowQuestion question) st).
Proof.
  intros question H. rewrite process_tools_cons.
  change (Agent._handle_tool_call E "ask_clarifying_question" input st)
    with (Agent._handle_ask_question E input st).
  unfold Agent._handle_ask_question. fold question. rewrite H. reflexivity.
Qed.

Lemma question_result_is_the_answer_witness :
  Agent.process_tools (answers "Error: none of them") [("1", "ask_clarifying_question", [])]
    JNull [] (fresh 5)
  = (Ret (JNull, [ToolResult "1" "User response: Error: none of them" false]),
     Agent.emit (Agent.ShowQuestion (JStr "")) (fresh 5)).
Proof.
  rewrite (question_result_is_the_answer (answers "Error: none of them") "1" [] [] JNull []
             (fresh 5) "Error: none of them"); reflexivity.
Defined.

Lemma hkey_eqb_eq (a b : Agent.hkey) : Agent.hkey_eqb a b = true <-> a = b.
Proof.
  destruct a, b; simpl; split; intros H; try discriminate; try reflexivity.
  - apply Z.eqb_eq in H. subst. reflexivity.
  - inversion H. apply Z.eqb_refl.
  - apply String.eqb_eq in H. subst. reflexivity.
  - inversion H. apply String.eqb_refl.
Qed.

Lemma same_key_iff (a b : jval) :
  Agent.same_key a b = true <->
  exists k, Agent.hash_key a = Some k /\ Agent.hash_key b = Some k.
Proof.
  unfold Agent.same_key.
  destruct (Agent.hash_key a) as [x|], (Agent.hash_key b) as [y|]; split;
    try discriminate; try (intros [k [H1 H2]]; discriminate).
  - intros H. apply hkey_eqb_eq in H. subst. eauto.
  - intros [k [H1 H2]]. inversion H1; inversion H2; subst. apply hkey_eqb_eq. reflexivity.
Qed.

(** [list(set(l))] on hashable values: every value of [l] is
    represented, none twice. *)
Lemma to_set_spec (l : list jval) :
  Forall hashable l ->
  forall acc, NoDup (map Agent.hash_key acc) ->
    exists all,
      Agent.to_set l acc = Ret all
      /\ NoDup (map Agent.hash_key all)
      /\ (forall v, In v acc -> In v all)
      /\ (forall v, In v l -> exists v', In v' all /\ Agent.same_key v v' = true)
      /\ (forall v, In v all -> In v acc \/ In v l).
Proof.
  induction 1 as [|v l Hv Hl IH]; intros acc Hacc; simpl.
  - exists acc. repeat split; auto. intros v [].
  - unfold hashable in Hv. destruct (Agent.hash_key v) as [k|] eqn:Hk; [|contradiction].
    destruct (existsb (Agent.same_key v) acc) eqn:Hex.
    + destruct (IH acc Hacc) as [all [Hrun [Hnd [Hkeep [Hrep Hfrom]]]]].
      exists all. repeat split; auto.
      * intros u [Hu|Hu]; [|auto]. subst u.
        apply existsb_exists in Hex. destruct Hex as [v' [Hin Hsame]]. eauto.
      * intros u Hu. destruct (Hfrom u Hu); auto.
    + assert (Hfresh : NoDup (map Agent.hash_key (acc ++ [v]))).
      { rewrite map_app. simpl. rewrite Hk.
        apply NoDup_app; [exact Hacc | repeat constructor; intros [] |].
        intros x Hx [Hx'|[]]. subst x. apply in_map_iff in Hx.
        destruct Hx as [u [Hu Hin]].
        assert (Hsame : Agent.same_key v u = true) by (apply same_key_iff; eauto).
        assert (Htrue : existsb (Agent.same_key v) acc = true)
          by (apply existsb_exists; eauto).
        congruence. }
      destruct (IH (acc ++ [v])%list Hfresh) as [all [Hrun [Hnd [Hkeep [Hrep Hfrom]]]]].
      exists all. repeat split; auto.
      * intros u Hu. apply Hkeep. apply in_or_app. auto.
      * intros u [Hu|Hu]; [|auto]. subst u. exists v. split.
        -- apply Hkeep. apply in_or_app. right. left. reflexivity.
        -- apply same_key_iff. eauto.
      * intros u Hu. destruct (Hfrom u Hu) as [Hin|Hin]; auto.
        apply in_app_or in Hin. destruct Hin as [Hin|[Hin|[]]]; auto.
Qed.

Lemma to_set_unhashable (l : list jval) :
  (exists v, In v l /\ Agent.hash_key v = None) ->
  forall acc, Agent.to_set l acc = Raise (Agent.type_error "unhashable type").
Proof.
  induction l as [|u l IH]; intros [v [Hin Hv]] acc; [contradiction|]. simpl.
  destruct (Agent.hash_key u) eqn:Hu; [|reflexivity].
  assert (Hl : exists v, In v l /\ Agent.hash_key v = None).
  { destruct Hin as [Hin|Hin]; [subst u; congruence | eauto]. }
  destruct (existsb _ acc); apply IH; exact Hl.
Qed.

(** X14: for a present_results invocation whose visualizations are a
    list of hashable values (none when the argument is missing), what is
    handed to the presenter is the summary argument with the merged
    figures: every tracked artifact and every listed visualization is
    among them, nothing else is, and none appears twice.  When the
    presenter displays them, the invocation is answered with the fixed
    text "Results presented to user.", unflagged, and sets the final
    summary to its summary argument; when the presenter raises, the tool
    loop is left with that exception and the invocation gets no
    result. *)
Theorem present_results_merges_figures (E : Agent.env) (id : string)
    (input : list (string * jval)) (rest : list (string * string * list (string * jval)))
    (fs : jval) (rs : list tool_result) (st : Agent.state) (vs : list jval) :
  let summary := dict_get input "summary" (JStr "") in
  dict_get input "visualizations" (JArr []) = JArr vs ->
  Forall hashable vs ->
  exists all_figures,
    (Agent.present E (Agent.ShowResults summary all_figures) = Ret tt ->
     Agent.process_tools E ((id, "present_results", input) :: rest) fs rs st
     = Agent.process_tools E rest summary
         (rs ++ [ToolResult id "Results presented to user." false])
         (Agent.emit (Agent.ShowResults summary all_figures) st))
    /\ (forall e,
          Agent.present E (Agent.ShowResults summary all_figures) = Raise e ->
          Agent.process_tools E ((id, "present_results", input) :: rest) fs rs st
          = (Raise e, Agent.emit (Agent.ShowResults summary all_figures) st))
    /\ NoDup (map Agent.hash_key all_figures)
    /\ (forall f, In f (Agent.figures st) -> In (JStr f) all_figures)
    /\ (forall v, In v vs -> exists v', In v' all_figures /\ Agent.same_key v v' = true)
    /\ (forall v, In v all_figures ->
          In v vs \/ exists f, In f (Agent.figures st) /\ v = JStr f).
Proof.
  intros summary Hvis Hhash.
  assert (Hall : Forall hashable (vs ++ map JStr (Agent.figures st))).
  { apply Forall_app. split; [exact Hhash|].
    apply Forall_forall. intros v Hv. apply in_map_iff in Hv. destruct Hv as [f [Hf _]].
    subst v. unfold hashable. simpl. discriminate. }
  destruct (to_set_spec _ Hall [] (NoDup_nil _)) as [all [Hrun [Hnd [_ [Hrep Hfrom]]]]].
  exists all. split; [|split].
  - intros Hshown. rewrite process_tools_cons.
    change (Agent._handle_tool_call E "present_results" input st)
      with (Agent._handle_present_results E input st).
    unfold Agent._handle_present_results, Agent.show. fold summary.
    rewrite Hvis, Hrun, Hshown. reflexivity.
  - intros e Hraised. rewrite process_tools_cons.
    change (Agent._handle_tool_call E "present_results" input st)
      with (Agent._handle_present_results E input st).
    unfold Agent._handle_present_results, Agent.show. fold summary.
    rewrite Hvis, Hrun, Hraised. reflexivity.
  - split; [exact Hnd|]. split; [|split].
    + intros f Hf.
      destruct (Hrep (JStr f)) as [v' [Hin Hsame]].
      { apply in_or_app. right. apply in_map. exact Hf. }
      apply same_key_iff in Hsame. destruct Hsame as [k [Hk Hk']]. simpl in Hk.
      inversion Hk; subst k. destruct v'; simpl in Hk'; try discriminate.
      inversion Hk'; subst. exact Hin.
    + intros v Hv. apply Hrep. apply in_or_app. left. exact Hv.
    + intros v Hv. destruct (Hfrom v Hv) as [[]|Hin].
      apply in_app_or in Hin. destruct Hin as [Hin|Hin]; [left; exact Hin|].
      right. apply in_map_iff in Hin. destruct Hin as [f [Hf Hin]]. eauto.
Qed.

Lemma present_results_merges_figures_witness :
  exists all_figures,
    Agent.process_tools keeps_going
      [("1", "present_results",
        [("summary", JStr "Done"); ("visualizations", JArr [JStr "a.png"; JStr "a.png"])])]
      JNull [] (fresh 5)
    = (Ret (JStr "Done", [ToolResult "1" "Results presented to user." false]),
       Agent.emit (Agent.ShowResults (JStr "Done") all_figures) (fresh 5))
    /\ NoDup (map Agent.hash_key all_figures).
Proof.
  destruct (present_results_merges_figures keeps_going "1"
              [("summary", JStr "Done"); ("visualizations", JArr [JStr "a.png"; JStr "a.png"])]
              [] JNull [] (fresh 5) [JStr "a.png"; JStr "a.png"])
    as [all [Hrun [_ [Hnd _]]]].
  - reflexivity.
  - repeat constructor; unfold hashable; simpl; discriminate.
  - exists all. split; [exact (Hrun eq_refl) | exact Hnd].
Defined.

(** X15: a present_results invocation whose visualizations argument is
    no list, or a list holding a value that cannot be hashed (a list or
    an object), raises a TypeError out of the tool loop: nothing is
    shown, the invocation and the rest of the turn get no result. *)
Theorem present_results_rejects_visualizations (E : Agent.env) (id : string)
    (input : list (string * jval)) (rest : list (string * string * list (string * jval)))
    (fs : jval) (rs : list tool_result) (st : Agent.state) :
  (forall vs, dict_get input "visualizations" (JArr []) <> JArr vs)
  \/ (exists vs v, dict_get input "visualizations" (JArr []) = JArr vs
                   /\ In v vs /\ Agent.hash_key v = None) ->
  exists e,
    exn_class e = "TypeError"
    /\ Agent.process_tools E ((id, "present_results", input) :: rest) fs rs st = (Raise e, st).
Proof.
  intros H. rewrite process_tools_cons.
  change (Agent._handle_tool_call E "present_results" input st)
    with (Agent._handle_present_results E input st).
  unfold Agent._handle_present_results.
  destruct H as [Hno|[vs [v [Hvis [Hin Hv]]]]].
  - destruct (dict_get input "visualizations" (JArr [])) eqn:Hvis;
      try (eexists; split; [|reflexivity]; reflexivity).
    exfalso. apply (Hno l). reflexivity.
  - rewrite Hvis. rewrite to_set_unhashable.
    + eexists. split; [|reflexivity]. reflexivity.
    + exists v. split; [apply in_or_app; left; exact Hin | exact Hv].
Qed.

Lemma present_results_rejects_visualizations_witness :
  exists e,
    exn_class e = "TypeError"
    /\ Agent.process_tools keeps_going
         [("1", "present_results", [("visualizations", JArr [JArr [JStr "a.png"]])])]
         JNull [] (fresh 5)
       = (Raise e, fresh 5).
Proof.
  apply (present_results_rejects_visualizations keeps_going "1"
           [("visualizations", JArr [JArr [JStr "a.png"]])] [] JNull [] (fresh 5)).
  right. exists [JArr [JStr "a.png"]], (JArr [JStr "a.png"]).
  split; [reflexivity|]. split; [left; reflexivity | reflexivity].
Defined.

(** ** More on the orchestrator *)

Lemma continues_intro (n : nat) (st st' : Agent.state) (ms : list message)
    (figs : list string) (evs : list Agent.event) (reqs : list (list message)) :
  Agent.messages st' = (Agent.messages st ++ ms)%list ->
  Agent.figures st' = (Agent.figures st ++ figs)%list ->
  Agent.events st' = (Agent.events st ++ evs)%list ->
  Agent.sent st' = (Agent.sent st ++ reqs)%list ->
  List.length reqs <= n ->
  Agent.max_iterations st' = Agent.max_iterations st ->
  continues n st st'.
Proof.
  intros. unfold continues. repeat split; eauto.
Qed.

Lemma continues_refl (st : Agent.state) : continues 0 st st.
Proof.
  apply (continues_intro 0 st st [] [] [] []); try (rewrite app_nil_r); auto.
Qed.

Lemma continues_trans (a b : nat) (st st1 st2 : Agent.state) :
  continues a st st1 -> continues b st1 st2 -> continues (a + b) st st2.
Proof.
  intros [[m1 Hm1] [[f1 Hf1] [[e1 He1] [[r1 [Hr1 Hl1]] Hx1]]]]
         [[m2 Hm2] [[f2 Hf2] [[e2 He2] [[r2 [Hr2 Hl2]] Hx2]]]].
  apply (continues_intro (a + b) st st2 (m1 ++ m2) (f1 ++ f2) (e1 ++ e2) (r1 ++ r2));
    try (rewrite app_assoc; congruence); [rewrite length_app; lia | congruence].
Qed.

Lemma continues_le (a b : nat) (st st' : Agent.state) :
  a <= b -> continues a st st' -> continues b st st'.
Proof.
  intros Hab [Hm [Hf [He [[r [Hr Hl]] Hx]]]]. unfold continues.
  repeat split; auto. exists r. split; [exact Hr | lia].
Qed.

Lemma continues_emit (e : Agent.event) (st : Agent.state) : continues 0 st (Agent.emit e st).
Proof.
  apply (continues_intro 0 st _ [] [] [e] []); simpl; try (rewrite app_nil_r); auto.
Qed.

Lemma continues_append_message (m : message) (st : Agent.state) :
  continues 0 st (Agent.append_message m st).
Proof.
  apply (continues_intro 0 st _ [m] [] [] []); simpl; try (rewrite app_nil_r); auto.
Qed.

Lemma continues_record_request (st : Agent.state) : continues 1 st (Agent.record_request st).
Proof.
  apply (continues_intro 1 st _ [] [] [] [Agent.messages st]); simpl;
    try (rewrite app_nil_r); auto.
Qed.

Lemma show_text_continues (E : Agent.env) (text : string) (st : Agent.state) :
  continues 0 st (snd (Agent.show_text E text st)).
Proof.
  destruct (show_text_state E text st) as [H|H]; rewrite H;
    [apply continues_refl | apply continues_emit].
Qed.

Lemma handle_tool_call_continues (E : Agent.env) (name : string)
    (input : list (string * jval)) (st : Agent.state) :
  continues 0 st (snd (Agent._handle_tool_call E name input st)).
Proof.
  unfold Agent._handle_tool_call.
  destruct (String.eqb name "execute_code").
  { unfold Agent._handle_execute_code, Agent.show.
    destruct (Executor.execute _ _ _ _) as [[[r ex] w]|e|]; try apply continues_refl.
    destruct (Agent.present E _) as [[]|e|];
      try (eapply continues_intro; simpl; try reflexivity; auto;
           try (rewrite app_nil_r; reflexivity); simpl; lia).
    destruct (Executor.success r), (Executor.figures r) as [|f figs] eqn:Hfigs; simpl;
      eapply continues_intro; simpl; try reflexivity; auto;
      try (rewrite app_nil_r; reflexivity); simpl; lia. }
  destruct (String.eqb name "ask_clarifying_question").
  { unfold Agent._handle_ask_question. destruct (Agent.answer E _); apply continues_emit. }
  destruct (String.eqb name "present_results"); [|apply continues_refl].
  unfold Agent._handle_present_results, Agent.show.
  destruct (dict_get input "visualizations" (JArr [])); try apply continues_refl.
  destruct (Agent.to_set _ _); simpl; try apply continues_refl.
  destruct (Agent.present E _) as [[]|e|]; apply continues_emit.
Qed.

Lemma process_tools_continues (E : Agent.env)
    (uses : list (string * string * list (string * jval))) :
  forall (fs : jval) (rs : list tool_result) (st : Agent.state),
    continues 0 st (snd (Agent.process_tools E uses fs rs st)).
Proof.
  induction uses as [|[[id name] input] rest IH]; intros fs rs st.
  - apply continues_refl.
  - rewrite process_tools_cons.
    pose proof (handle_tool_call_continues E name input st) as Hh.
    destruct (Agent._handle_tool_call E name input st) as [[result|e|] st1]; simpl in Hh;
      try exact Hh.
    destruct (String.eqb name "present_results");
      [|destruct (String.eqb name "ask_clarifying_question")];
      apply (continues_trans 0 0 st st1 _ Hh); apply IH.
Qed.

Lemma loop_continues (E : Agent.env) (n : nat) :
  forall (it : Z) (st : Agent.state), continues n st (snd (Agent.loop E n it st)).
Proof.
  induction n as [|n IH]; intros it st.
  - apply continues_refl.
  - rewrite loop_S. cbv zeta.
    set (st1 := Agent.record_request _).
    assert (H1 : continues 1 st st1).
    { unfold st1. eapply (continues_trans 0 1); [apply continues_emit|].
      apply continues_record_request. }
    clearbody st1.
    assert (Hle : 1 <= S n) by lia.
    destruct (fst (Llm.send_message (Agent.create E (Agent.messages st1)) _)) as [[resp|]|e|];
      cbn [fst snd]; try (apply (continues_le 1 (S n) _ _ Hle); exact H1).
    2:{ apply (continues_le 1 (S n) _ _ Hle).
        destruct (base_only e); cbn [fst snd]; [exact H1|].
        unfold Agent.show. destruct (Agent.present E _) as [[]|e'|]; cbn [fst snd];
          apply (continues_trans 1 0 st st1 _ H1); apply continues_emit. }
    pose proof (show_text_continues E (Llm.extract_text (content resp)) st1) as H2'.
    destruct (Agent.show_text E _ st1) as [o2 st2]. cbn [snd] in H2'.
    assert (H2 : continues 1 st st2) by (apply (continues_trans 1 0 st st1 _ H1); exact H2').
    clear H2'.
    destruct o2 as [[]|e|]; cbn [fst snd];
      try (apply (continues_le 1 (S n) _ _ Hle); exact H2).
    destruct (Agent.is_empty _ && _); cbn [fst snd];
      [apply (continues_le 1 (S n) _ _ Hle); exact H2|].
    set (st3 := Agent.append_message _ st2).
    assert (H3 : continues 1 st st3)
      by (apply (continues_trans 1 0 st st2 _ H2); apply continues_append_message).
    clearbody st3.
    pose proof (process_tools_continues E (Llm.extract_tool_use (content resp)) JNull [] st3)
      as H4.
    destruct (Agent.process_tools E _ JNull [] st3) as [[[fs rs]|e|] st4]; cbn [fst snd] in *;
      try (apply (continues_le 1 (S n) _ _ Hle);
           apply (continues_trans 1 0 st st3 _ H3); exact H4).
    assert (H5 : continues 1 st (Agent.append_message (Message "user" (CResults rs)) st4)).
    { apply (continues_trans 1 0 st st4 _); [|apply continues_append_message].
      apply (continues_trans 1 0 st st3 _ H3). exact H4. }
    destruct (negb (Agent.is_none fs)); cbn [fst snd].
    + apply (continues_le 1 (S n) _ _ Hle). exact H5.
    + apply (continues_trans 1 n st _ _ H5). apply IH.
Qed.

Lemma run_continues (E : Agent.env) (query : string) (st : Agent.state) :
  continues (Z.to_nat (Agent.max_iterations st))
    (Agent.append_message (query_turn E query st) st) (snd (Agent.run E query st)).
Proof.
  unfold Agent.run. fold (query_turn E query st).
  set (st0 := Agent.append_message _ st).
  change (Agent.max_iterations st0) with (Agent.max_iterations st).
  pose proof (loop_continues E (Z.to_nat (Agent.max_iterations st)) 0 st0) as Hl.
  destruct (Agent.loop E _ 0 st0) as [[[it fs]|e|] st1]; simpl in Hl; try exact Hl.
  destruct (_ && _); simpl; [|exact Hl].
  replace (Z.to_nat (Agent.max_iterations st)) with (Z.to_nat (Agent.max_iterations st) + 0)
    by lia.
  apply (continues_trans _ 0 _ st1 _ Hl). apply continues_emit.
Qed.

(** X16: a run only ever appends, however it ends (returning, raising
    or hanging): the conversation afterwards is the one before, the
    query turn and further turns; the tracked artifacts and the
    presenter's log are the earlier ones and more; the budget is
    unchanged. *)
Theorem run_only_appends (E : Agent.env) (query : string) (st : Agent.state) :
  let st' := snd (Agent.run E query st) in
  (exists tail,
      Agent.messages st' = (Agent.messages st ++ query_turn E query st :: tail)%list)
  /\ (exists figs, Agent.figures st' = (Agent.figures st ++ figs)%list)
  /\ (exists evs, Agent.events st' = (Agent.events st ++ evs)%list)
  /\ Agent.max_iterations st' = Agent.max_iterations st.
Proof.
  destruct (run_continues E query st) as [[ms Hm] [Hf [He [_ Hx]]]].
  simpl. repeat split; auto.
  exists ms. rewrite Hm. simpl. rewrite <- app_assoc. reflexivity.
Qed.

(** X17: whatever the model, the user and the snippets do, and however
    the run ends, it passes at most [max_iterations] conversations to the
    reasoning client, none at all for a budget below one. *)
Theorem run_never_exceeds_budget (E : Agent.env) (query : string) (st : Agent.state) :
  exists reqs,
    Agent.sent (snd (Agent.run E query st)) = (Agent.sent st ++ reqs)%list
    /\ List.length reqs <= Z.to_nat (Agent.max_iterations st)
    /\ (Z.of_nat (List.length reqs) <= Z.max 0 (Agent.max_iterations st))%Z.
Proof.
  destruct (run_continues E query st) as [_ [_ [_ [[reqs [Hr Hl]] _]]]].
  exists reqs. simpl in Hr. repeat split; auto. lia.
Qed.





Lemma py_or_text (text : string) :
  py_or (JStr text) (JStr Agent.complete)
  = JStr (if String.eqb text "" then Agent.complete else text).
Proof.
  unfold py_or. simpl. destruct (String.eqb text ""); reflexivity.
Qed.

(** X20: when the model's first turn holds no tool invocation and stops
    with "end_turn", and its text is empty or displayed by the
    presenter, the run returns the turn's text, or "Analysis complete."
    when the turn has none; it has made one request, and the model's
    final turn is not added to the conversation.  When the presenter
    raises on the text, so does the run. *)
Theorem run_on_natural_completion (E : Agent.env) (query : string) (st : Agent.state)
    (resp : response) :
  let conv := (Agent.messages st ++ [query_turn E query st])%list in
  let text := Llm.extract_text (content resp) in
  (0 < Agent.max_iterations st)%Z ->
  fst (Llm.send_message (Agent.create E conv) Llm.default_max_retries) = Ret (Some resp) ->
  Llm.extract_tool_use (content resp) = [] ->
  stop_reason resp = "end_turn" ->
  (text = "" \/ Agent.present E (Agent.ShowThinking text) = Ret tt ->
   fst (Agent.run E query st)
   = Ret (JStr (if String.eqb text "" then Agent.complete else text))
   /\ Agent.messages (snd (Agent.run E query st)) = conv
   /\ Agent.sent (snd (Agent.run E query st)) = (Agent.sent st ++ [conv])%list)
  /\ (forall e,
        text <> "" -> Agent.present E (Agent.ShowThinking text) = Raise e ->
        fst (Agent.run E query st) = Raise e).
Proof.
  intros conv text Hpos Hsend Huses Hstop. unfold Agent.run. fold (query_turn E query st).
  set (st0 := Agent.append_message _ st).
  change (Agent.max_iterations st0) with (Agent.max_iterations st).
  destruct (Z.to_nat (Agent.max_iterations st)) as [|n] eqn:Hn; [lia|].
  rewrite loop_S. cbv zeta.
  set (st1 := Agent.record_request _).
  change (Agent.messages st1) with conv. rewrite Hsend, Huses, Hstop.
  fold text. split.
  - intros Hshown. rewrite (show_text_returns E text st1 Hshown). cbv iota beta.
    simpl Agent.is_empty. simpl andb. cbv iota.
    change (JStr "Analysis complete.") with (JStr Agent.complete).
    rewrite py_or_text. simpl Agent.is_none. rewrite andb_false_r. cbv iota.
    destruct (String.eqb text "") eqn:Ht; simpl.
    + repeat split; reflexivity.
    + unfold py_or. simpl. rewrite Ht. repeat split; reflexivity.
  - intros e Hne Hraised. unfold Agent.show_text, Agent.show.
    apply String.eqb_neq in Hne. rewrite Hne, Hraised. reflexivity.
Qed.

Lemma run_on_natural_completion_witness :
  fst (Agent.run (Agent.mkEnv (always sample_response) prints_one says_yes info displays)
         "Quick analysis" (fresh 5)) = Ret (JStr "ok").
Proof.
  apply (proj1 (proj1 (run_on_natural_completion
                  (Agent.mkEnv (always sample_response) prints_one says_yes info displays)
                  "Quick analysis" (fresh 5) sample_response
                  eq_refl eq_refl eq_refl eq_refl) (or_intror eq_refl))).
Defined.

(** ** The scripted query loop *)

Lemma query_process_tools_cons (E : Agent.env) (id name : string)
    (input : list (string * jval)) (rest : list (string * string * list (string * jval)))
    (rs : list tool_result) (done : bool) (st : TestQuery.state) :
  name <> "execute_code" ->
  name <> "ask_clarifying_question" ->
  name <> "present_results" ->
  TestQuery.process_tools E ((id, name, input) :: rest) rs done st
  = TestQuery.process_tools E rest rs done st.
Proof.
  intros H1 H2 H3. apply String.eqb_neq in H1, H2, H3.
  simpl. rewrite H1, H2, H3. reflexivity.
Qed.

(** The tool loop of [run_query] leaves the conversation and the
    request log alone, and when it returns it has answered exactly the
    invocations of the three known tools. *)
Lemma query_process_tools_results (E : Agent.env)
    (uses : list (string * string * list (string * jval))) :
  forall (rs : list tool_result) (done : bool) (st : TestQuery.state),
    TestQuery.messages (snd (TestQuery.process_tools E uses rs done st)) = TestQuery.messages st
    /\ TestQuery.sent (snd (TestQuery.process_tools E uses rs done st)) = TestQuery.sent st
    /\ forall rs' done',
        fst (TestQuery.process_tools E uses rs done st) = Ret (rs', done') ->
        map tool_use_id rs' = (map tool_use_id rs ++ map use_id (filter known_tool uses))%list
        /\ done' = (done || existsb presents_results uses)%bool.
Proof.
  induction uses as [|[[id name] input] rest IH]; intros rs done st.
  - simpl. split; [reflexivity|]. split; [reflexivity|].
    intros rs' done' H. inversion H; subst.
    rewrite app_nil_r, orb_false_r. auto.
  - assert (Hnext : forall r1 d1 st1,
               tool_use_id r1 = id ->
               TestQuery.messages st1 = TestQuery.messages st ->
               TestQuery.sent st1 = TestQuery.sent st ->
               d1 = (done || presents_results (id, name, input))%bool ->
               known_tool (id, name, input) = true ->
               let res := TestQuery.process_tools E rest (rs ++ [r1]) d1 st1 in
               TestQuery.messages (snd res) = TestQuery.messages st
               /\ TestQuery.sent (snd res) = TestQuery.sent st
               /\ forall rs' done',
                   fst res = Ret (rs', done') ->
                   map tool_use_id rs'
                   = (map tool_use_id rs
                      ++ map use_id (filter known_tool ((id, name, input) :: rest)))%list
                   /\ done' = (done || existsb presents_results ((id, name, input) :: rest))%bool).
    { intros r1 d1 st1 Hid Hm1 Hs1 Hd Hk res. unfold res.
      destruct (IH (rs ++ [r1])%list d1 st1) as [Hm [Hs Hr]].
      split; [congruence|]. split; [congruence|].
      intros rs' done' H. destruct (Hr rs' done' H) as [Hids Hdone].
      split.
      - rewrite Hids, map_app, <- app_assoc. simpl filter. rewrite Hk. simpl. rewrite Hid.
        reflexivity.
      - rewrite Hdone, Hd. simpl existsb. rewrite orb_assoc. reflexivity. }
    cbn [TestQuery.process_tools].
    destruct (String.eqb name "execute_code") eqn:H1.
    + apply String.eqb_eq in H1. subst name.
      destruct (Executor.execute _ _ _ _) as [[[r ex] w]|e|]; simpl;
        try (repeat split; auto; intros; discriminate).
      destruct (Executor.success r).
      * apply Hnext; auto; try (destruct (negb _), (Executor.figures r); reflexivity).
        rewrite orb_false_r. reflexivity.
      * destruct (Executor.error r) as [err|]; simpl;
          [|repeat split; auto; intros; discriminate].
        apply Hnext; auto. rewrite orb_false_r. reflexivity.
    + destruct (String.eqb name "ask_clarifying_question") eqn:H2.
      * apply String.eqb_eq in H2. subst name. apply Hnext; auto.
        rewrite orb_false_r. reflexivity.
      * destruct (String.eqb name "present_results") eqn:H3.
        -- destruct (TestQuery.iterate _) as [vs|e|]; simpl;
             try (repeat split; auto; intros; discriminate).
           apply Hnext; auto.
           ++ unfold presents_results, use_name. simpl. rewrite H3, orb_true_r. reflexivity.
           ++ unfold known_tool, use_name. simpl. rewrite H3. apply orb_true_r.
        -- destruct (IH rs done st) as [Hm [Hs Hr]].
           split; [exact Hm|]. split; [exact Hs|].
           intros rs' done' H. destruct (Hr rs' done' H) as [Hids Hdone].
           unfold known_tool, presents_results, use_name. simpl.
           rewrite H1, H2, H3. simpl. auto.
Qed.

(** X21: when the tool loop of [run_query] returns, it has produced
    results, in order, for exactly the invocations of the three known
    tools: an invocation of any other tool is passed over and gets no
    result at all; and the loop reports done exactly when the turn held
    a present_results invocation. *)
Theorem run_query_answers_known_tools_only (E : Agent.env)
    (uses : list (string * string * list (string * jval)))
    (st : TestQuery.state) (rs : list tool_result) (done : bool) :
  fst (TestQuery.process_tools E uses [] false st) = Ret (rs, done) ->
  map tool_use_id rs = map use_id (filter known_tool uses)
  /\ done = existsb presents_results uses
  /\ (forall u, In u uses -> known_tool u = false ->
        List.length rs < List.length uses).
Proof.
  intros H.
  destruct (query_process_tools_results E uses [] false st) as [_ [_ Hr]].
  destruct (Hr rs done H) as [Hids Hdone]. simpl in Hids, Hdone.
  split; [exact Hids|]. split; [exact Hdone|].
  intros u Hu Hk.
  assert (Hlen : List.length rs = List.length (filter known_tool uses))
    by (rewrite <- (length_map tool_use_id), Hids, length_map; reflexivity).
  rewrite Hlen. clear - Hu Hk.
  induction uses as [|v uses IH]; [contradiction|]. simpl.
  destruct Hu as [Hu|Hu].
  - subst v. rewrite Hk. pose proof (filter_length_le known_tool uses). lia.
  - specialize (IH Hu). destruct (known_tool v); simpl; lia.
Qed.

Lemma run_query_answers_known_tools_only_witness :
  map tool_use_id [ToolResult "8" "Results presented to user." false] = ["8"]
  /\ List.length [ToolResult "8" "Results presented to user." false]
     < List.length (Llm.extract_tool_use (content chart_turn)).
Proof.
  destruct (run_query_answers_known_tools_only keeps_going
              (Llm.extract_tool_use (content chart_turn))
              (query_start keeps_going "data.csv" "Quick analysis" ex0 w0)
              [ToolResult "8" "Results presented to user." false] true eq_refl)
    as [Hids [_ Hlen]].
  split; [exact Hids|].
  apply (Hlen ("7", "make_chart", [])); [left; reflexivity | reflexivity].
Defined.

(** X22: [run_query] does not catch a failure of the reasoning client:
    when the first request fails, the exception leaves [run_query] after
    that one request, and no figure list is returned. *)
Theorem run_query_propagates_client_failure (E : Agent.env) (csv_path query : string)
    (ex : Executor.executor) (w : Executor.world) (e : exn) :
  let start := query_start E csv_path query ex w in
  fst (Llm.send_message (Agent.create E (TestQuery.messages start)) Llm.default_max_retries)
  = Raise e ->
  exists st,
    TestQuery.run_query E csv_path query ex w = (Raise e, st)
    /\ TestQuery.sent st = [TestQuery.messages start]
    /\ TestQuery.messages st = TestQuery.messages start.
Proof.
  intros start Hsend. unfold TestQuery.run_query. fold (query_start E csv_path query ex w).
  fold start. unfold TestQuery.max_iterations.
  change (TestQuery.loop E 10 0 start)
    with (let st := TestQuery.record_request
                      (TestQuery.say (TestQuery.Iteration (0 + 1) 10) start) in
          match fst (Llm.send_message (Agent.create E (TestQuery.messages start))
                       Llm.default_max_retries) with
          | Raise e => (Raise e, st)
          | Hang => (Hang, st)
          | Ret None =>
            (Raise (Exn "AttributeError" "'NoneType' object has no attribute 'content'" ""), st)
          | Ret (Some response) =>
            let text_content := Llm.extract_text (content response) in
            let st := if negb (String.eqb text_content "")
                      then TestQuery.say (TestQuery.Thinking (TestQuery.preview 200 text_content)) st
                      else st in
            let tool_uses := Llm.extract_tool_use (content response) in
            if Agent.is_empty tool_uses && String.eqb (stop_reason response) "end_turn"
            then (Ret true, TestQuery.say TestQuery.Complete st)
            else
              let st := TestQuery.append_message
                          (Message "assistant" (CBlocks (content response))) st in
              match TestQuery.process_tools E tool_uses [] false st with
              | (Ret (tool_results, done), st) =>
                let st := TestQuery.append_message
                            (Message "user" (CResults tool_results)) st in
                if done then (Ret true, st) else TestQuery.loop E 9 (0 + 1) st
              | (Raise e, st) => (Raise e, st)
              | (Hang, st) => (Hang, st)
              end
          end).
  cbv zeta. rewrite Hsend. eexists. split; [reflexivity|]. split; reflexivity.
Qed.

Lemma run_query_propagates_client_failure_witness :
  exists st,
    TestQuery.run_query offline "data.csv" "Quick analysis" ex0 w0 = (Raise rate_limited, st)
    /\ List.length (TestQuery.sent st) = 1.
Proof.
  destruct (run_query_propagates_client_failure offline "data.csv" "Quick analysis" ex0 w0
              rate_limited eq_refl) as [st [Hrun [Hsent _]]].
  exists st. split; [exact Hrun|]. rewrite Hsent. reflexivity.
Defined.

Lemma query_loop_requests (E : Agent.env) (n : nat) :
  forall (it : Z) (st : TestQuery.state),
  exists reqs,
    TestQuery.sent (snd (TestQuery.loop E n it st)) = (TestQuery.sent st ++ reqs)%list
    /\ List.length reqs <= n.
Proof.
  induction n as [|n IH]; intros it st.
  - exists []. simpl. rewrite app_nil_r. auto.
  - cbn [TestQuery.loop].
    set (st1 := TestQuery.record_request _).
    assert (Hs1 : TestQuery.sent st1 = (TestQuery.sent st ++ [TestQuery.messages st])%list)
      by reflexivity.
    assert (Hone : exists reqs,
               TestQuery.sent st1 = (TestQuery.sent st ++ reqs)%list
               /\ List.length reqs <= S n)
      by (exists [TestQuery.messages st]; split; [exact Hs1 | simpl; lia]).
    clearbody st1.
    destruct (fst (Llm.send_message (Agent.create E (TestQuery.messages st1)) _))
      as [[resp|]|e|]; simpl; try exact Hone.
    set (st2 := if negb _ then _ else st1).
    assert (Hs2 : TestQuery.sent st2 = TestQuery.sent st1)
      by (unfold st2; destruct (negb _); reflexivity).
    clearbody st2.
    destruct (Agent.is_empty _ && _); simpl; [rewrite Hs2; exact Hone|].
    set (st3 := TestQuery.append_message _ st2).
    assert (Hs3 : TestQuery.sent st3 = TestQuery.sent st1) by exact Hs2.
    clearbody st3.
    destruct (query_process_tools_results E (Llm.extract_tool_use (content resp)) [] false st3)
      as [_ [Hs4 _]].
    destruct (TestQuery.process_tools E _ [] false st3) as [[[rs done]|e|] st4];
      simpl in Hs4; simpl; try (rewrite Hs4, Hs3; exact Hone).
    destruct done; simpl; [rewrite Hs4, Hs3; exact Hone|].
    destruct (IH (it + 1)%Z
                (TestQuery.append_message (Message "user" (CResults rs)) st4))
      as [reqs [Hr Hl]].
    exists (TestQuery.messages st :: reqs). rewrite Hr. simpl. rewrite Hs4, Hs3, Hs1.
    rewrite <- app_assoc. split; [reflexivity | simpl; lia].
Qed.

(** X23: whatever the model and the snippets do, and however it ends,
    [run_query] passes at most ten conversations to the reasoning
    client. *)
Theorem run_query_makes_at_most_ten_requests (E : Agent.env) (csv_path query : string)
    (ex : Executor.executor) (w : Executor.world) :
  List.length (TestQuery.sent (snd (TestQuery.run_query E csv_path query ex w))) <= 10.
Proof.
  unfold TestQuery.run_query.
  match goal with
  | |- context [TestQuery.loop E ?n 0 ?st] =>
    destruct (query_loop_requests E n 0 st) as [reqs [Hr Hl]];
      destruct (TestQuery.loop E n 0 st) as [[broken|e|] st1]
  end; simpl in Hr; simpl; try (rewrite Hr; exact Hl).
  destruct broken; simpl; rewrite Hr; exact Hl.
Qed.

(** ** Consecutive executions *)

Lemma execute_figures_listed (self self' : Executor.executor) (code : Executor.snippet)
    (timeout : nat) (w w' : Executor.world) (r : Executor.ExecutionResult) :
  Executor.execute self code timeout w = Ret (r, self', w') ->
  forall p, In p (Executor.figures r) ->
    In p (Executor._get_existing_figures self' w')
    /\ ~ In p (Executor._get_existing_figures self w).
Proof.
  intros H p Hp.
  destruct (Executor.success r) eqn:Hok.
  - rewrite (execute_success_figures _ _ _ _ _ _ _ H Hok) in Hp.
    apply (Permutation_in _ (sorted_perm _)) in Hp. apply set_diff_In. exact Hp.
  - exfalso. unfold Executor.execute, Executor.copy in H.
    match type of H with
    | context [Executor.run_code ?a ?c ?s] => destruct (Executor.run_code a c s) as [e s1]
    end.
    destruct e; try discriminate;
      repeat match type of H with
             | context [if ?x then _ else _] => destruct x
             | context [let '(_, _) := ?x in _] => destruct x as [[? ?] ?]
             | context [match ?x with Some _ => _ | None => _ end] => destruct x
             end;
      try discriminate; inversion H; subst; simpl in *; try discriminate; contradiction.
Qed.

(** X24: no artifact is reported twice: a path listed in the result of
    one execution is not listed in the result of the execution that
    follows it, even when the second snippet writes the same file
    again. *)
Theorem execute_reports_artifact_once (self self1 self2 : Executor.executor)
    (code1 code2 : Executor.snippet) (t1 t2 : nat) (w w1 w2 : Executor.world)
    (r1 r2 : Executor.ExecutionResult) :
  Executor.execute self code1 t1 w = Ret (r1, self1, w1) ->
  Executor.execute self1 code2 t2 w1 = Ret (r2, self2, w2) ->
  forall p, In p (Executor.figures r1) -> ~ In p (Executor.figures r2).
Proof.
  intros H1 H2 p Hp1 Hp2.
  destruct (execute_figures_listed _ _ _ _ _ _ _ H1 p Hp1) as [Hin _].
  destruct (execute_figures_listed _ _ _ _ _ _ _ H2 p Hp2) as [_ Hout].
  contradiction.
Qed.

Lemma execute_reports_artifact_once_witness :
  exists r1 self1 w1 r2 self2 w2,
    Executor.execute ex0 one_plot 30 w0 = Ret (r1, self1, w1)
    /\ Executor.execute self1 one_plot 30 w1 = Ret (r2, self2, w2)
    /\ In "output/test_plot.png" (Executor.figures r1)
    /\ ~ In "output/test_plot.png" (Executor.figures r2).
Proof.
  eexists; eexists; eexists; eexists; eexists; eexists.
  split; [reflexivity|]. split; [reflexivity|]. split; [left; reflexivity|].
  refine (execute_reports_artifact_once ex0 _ _ one_plot one_plot 30 30 w0 _ _ _ _
            eq_refl eq_refl "output/test_plot.png" _).
  left. reflexivity.
Defined.
